(** * A contract client for a remote ledger: model and verified properties

    The client of [src/unnamed/part_000] (and the view-only script
    [src/src/main.ts]) builds a transaction, signs its JSON text with
    Ed25519, posts it to a gateway and polls for confirmation.

    The model keeps the shape of the TypeScript source:
    - JavaScript values that travel as JSON are the inductive [value];
    - [JSON.stringify], template literals and [Buffer.toString('base64')]
      are executable functions on strings and bytes;
    - [async] functions are computations in a state-and-exception monad
      over a [World] that records every request, console line, spinner
      change and pause, in order;
    - the gateway is a function from the request (and the number of
      requests already made) to what axios would report;
    - the signature package is an interface ([Ed25519]); only its refusal
      of a key of the wrong length is written out, from the spec.

    [main] is a session at a terminal: the lines typed are part of the
    state, and one pass through the menu is a computation on it. *)

From Stdlib Require Import ZArith NArith List String Ascii Bool Lia.
From Stdlib Require Import Strings.Byte DecimalString DecimalZ DecimalPos.
Import ListNotations.

Local Open Scope string_scope.
Local Open Scope Z_scope.

(** ** Strings

    A JavaScript string is modelled by the bytes of its UTF-8 text (a
    well-formed string, which is what JSON parsing and the wallet file
    produce).  Every character [JSON.stringify] treats specially is ASCII,
    so the escaping below acts on these bytes exactly as it acts on the
    UTF-16 code units. *)

Definition dquote : ascii := ascii_of_nat 34.
Definition backslash : ascii := ascii_of_nat 92.

Definition str1 (c : ascii) : string := String c EmptyString.

Fixpoint join (sep : string) (parts : list string) : string :=
  match parts with
  | [] => EmptyString
  | [p] => p
  | p :: rest => p ++ sep ++ join sep rest
  end.

(** ** Numbers

    The numbers the client computes with are counters (nonce, elapsed
    attempts, attempt budget) and one clock quotient.  An integer-valued
    double is [Int z].  [Milli ms], with [ms] not a multiple of a thousand,
    is the double nearest to [ms/1000]: this is what [Date.now() / 1000]
    yields, and for clock readings below [10^15] distinct readings give
    distinct doubles whose shortest decimal text is the exact expansion of
    [ms/1000].  NaN, the infinities, the negative zero, other fractions
    and magnitudes from [2^1024] on are not modelled; the text of a number
    is JavaScript's own on the range [printable] below, and the
    statements about that text are made for this range. *)

Inductive number : Type :=
| Int (z : Z)
| Milli (ms : Z).

(** Rounding of an exact integer to the nearest double, ties to the even
    significand (53 bits).  Magnitudes below [2^53] are exact. *)
Definition round_double (z : Z) : Z :=
  let a := Z.abs z in
  if a <? 2 ^ 53 then z
  else
    let e := Z.log2 a - 52 in
    let q := Z.shiftr a e in
    let r := a - Z.shiftl q e in
    let half := 2 ^ (e - 1) in
    let q' := if r <? half then q
              else if half <? r then q + 1
              else if Z.even q then q else q + 1 in
    Z.sgn z * Z.shiftl q' e.

(** [a + b] on integer-valued doubles. *)
Definition js_add (a b : Z) : Z := round_double (a + b).

(** [x / 1000] for an integer [x]. *)
Definition js_div1000 (x : Z) : number :=
  if x mod 1000 =? 0 then Int (x / 1000) else Milli x.

Definition decimal (z : Z) : string := NilZero.string_of_int (Z.to_int z).

(** The digits of a fraction of thousandths, [1 <= f < 1000], without the
    trailing zeros. *)
Definition fraction_digits (f : Z) : string :=
  let h := f / 100 in
  let t := (f / 10) mod 10 in
  let u := f mod 10 in
  if u =? 0 then
    if t =? 0 then decimal h else decimal h ++ decimal t
  else decimal h ++ decimal t ++ decimal u.

Definition sign_text (x : Z) : string :=
  if x <? 0 then "-" else EmptyString.

(** [Number::toString] (radix 10), on the numbers that are [printable]:
    there the shortest digits that give the double back are all the digits
    of the integer, or of the thousandths. *)
Definition Number_toString (n : number) : string :=
  match n with
  | Int z => decimal z
  | Milli ms =>
      let a := Z.abs ms in
      sign_text ms ++ decimal (a / 1000) ++ "." ++ fraction_digits (a mod 1000)
  end.


(** ** Values *)

#[warnings="-register-all"]
Inductive value : Type :=
| VUndefined
| VNull
| VBool (b : bool)
| VNum (n : number)
| VStr (s : string)
| VArr (items : list value)
| VObj (fields : list (string * value)).

Definition hex_digit (n : nat) : ascii :=
  nth n
    ["0"; "1"; "2"; "3"; "4"; "5"; "6"; "7"; "8"; "9";
     "a"; "b"; "c"; "d"; "e"; "f"]%char "0"%char.

(** The escape [JSON.stringify] writes for one character of a string. *)
Definition escape_char (c : ascii) : string :=
  let n := nat_of_ascii c in
  if Nat.eqb n 34 then String backslash (str1 dquote)
  else if Nat.eqb n 92 then String backslash (str1 backslash)
  else if Nat.eqb n 8 then String backslash "b"
  else if Nat.eqb n 9 then String backslash "t"
  else if Nat.eqb n 10 then String backslash "n"
  else if Nat.eqb n 12 then String backslash "f"
  else if Nat.eqb n 13 then String backslash "r"
  else if Nat.ltb n 32 then
    String backslash
      (String "u" (String "0" (String "0"
        (String (hex_digit (Nat.div n 16)) (str1 (hex_digit (Nat.modulo n 16)))))))
  else str1 c.

Fixpoint escape (s : string) : string :=
  match s with
  | EmptyString => EmptyString
  | String c rest => escape_char c ++ escape rest
  end.

(** [QuoteJSONString]. *)
Definition quote (s : string) : string :=
  String dquote (escape s ++ str1 dquote).

(** [JSON.stringify(v)] without indentation, for a defined [v].  A property
    whose value is [undefined] is left out of an object; in an array it is
    written [null]. *)
Fixpoint stringify (v : value) : string :=
  match v with
  | VUndefined => "null"
  | VNull => "null"
  | VBool true => "true"
  | VBool false => "false"
  | VNum n => Number_toString n
  | VStr s => quote s
  | VArr items => "[" ++ join "," (map stringify items) ++ "]"
  | VObj fields =>
      "{" ++ join ","
        ((fix members (l : list (string * value)) : list string :=
            match l with
            | [] => []
            | (_, VUndefined) :: rest => members rest
            | (k, x) :: rest => (quote k ++ ":" ++ stringify x) :: members rest
            end) fields) ++ "}"
  end.

(** [v === lit] for a string literal. *)
Definition strict_eq_string (v : value) (lit : string) : bool :=
  match v with VStr s => String.eqb s lit | _ => false end.

Fixpoint lookup (key : string) (fields : list (string * value)) : option value :=
  match fields with
  | [] => None
  | (k, v) :: rest => if String.eqb k key then Some v else lookup key rest
  end.

(** [String(v)], as a template literal applies it, for a value none of
    whose objects has a property of its own named [toString] (with one,
    which JSON can give it, the conversion throws instead). *)
Fixpoint ToString (v : value) : string :=
  match v with
  | VUndefined => "undefined"
  | VNull => "null"
  | VBool true => "true"
  | VBool false => "false"
  | VNum n => Number_toString n
  | VStr s => s
  | VArr items =>
      join ","
        (map (fun x => match x with
                       | VUndefined | VNull => EmptyString
                       | _ => ToString x
                       end) items)
  | VObj _ => "[object Object]"
  end.

(** ** Effects *)

Inductive HttpMethod : Type := GET | POST.

(** What the process does that can be observed from outside, in order. *)
Inductive Event : Type :=
| EvRequest (method : HttpMethod) (url : string) (data : value)
| EvConsole (line : string)
| EvSpinnerStart (message : string)
| EvSpinnerSucceed (message : string)
| EvSpinnerFail (message : string)
| EvSpinnerStop
| EvSleep (ms : Z).

Record World : Type := mkWorld {
  now : Z;                (* the reading of Date.now(), in milliseconds *)
  events : list Event     (* oldest first *)
}.

(** What can be thrown.  [Error message cause] is a JavaScript [Error] as
    far as the client sets it: [new Error(message, options)] keeps
    [options.cause] when [options] is an object that has the property.
    [TypeError key] is the error of reading the property [key] of [null]
    or [undefined]; [TransportError] is the axios error that has no
    response; [InvalidKeyError] is the refusal of the signature library. *)
Inductive exn : Type :=
| Error (message : string) (cause : option value)
| TransportError (detail : string)
| TypeError (reading : string)
| InvalidKeyError.

Inductive outcome (A : Type) : Type :=
| Return (a : A)
| Throw (e : exn)
| Pending.
Arguments Return {A} a.
Arguments Throw {A} e.
Arguments Pending {A}.

Definition M (A : Type) : Type := World -> outcome A * World.

Definition ret {A} (a : A) : M A := fun w => (Return a, w).

Definition throw {A} (e : exn) : M A := fun w => (Throw e, w).

Definition bind {A B} (m : M A) (k : A -> M B) : M B :=
  fun w =>
    match m w with
    | (Return a, w') => k a w'
    | (Throw e, w') => (Throw e, w')
    | (Pending, w') => (Pending, w')
    end.

Declare Scope js_scope.
Delimit Scope js_scope with js.
Notation "'let*' x ':=' m 'in' k" := (bind m (fun x => k))
  (at level 10, x name, m at level 100, k at level 200) : js_scope.
Notation "m ';;' k" := (bind m (fun _ => k))
  (at level 100, k at level 200, right associativity) : js_scope.
Local Open Scope js_scope.

(** The world after more events. *)
Definition extend (w : World) (more : list Event) : World :=
  mkWorld (now w) (events w ++ more).

Definition emit (e : Event) : M unit :=
  fun w => (Return tt, extend w [e]).

Definition Date_now : M Z := fun w => (Return (now w), w).

Definition console_log (line : string) : M unit := emit (EvConsole line).

Definition is_request (e : Event) : bool :=
  match e with EvRequest _ _ _ => true | _ => false end.

Definition requests (w : World) : list Event := filter is_request (events w).

(** What axios reports for one request: the body of a 2xx response, an
    error that carries the response (any other status), or an error with no
    response at all. *)
Inductive Reply : Type :=
| Delivered (data : value)
| Rejected (data : value)
| Unreachable (detail : string).

(** The remote side: its answer to a request, given how many requests it
    has seen before. *)
Definition Gateway : Type := nat -> HttpMethod -> string -> value -> Reply.

Definition new_Error (message : string) (options : value) : exn :=
  match options with
  | VObj fields => Error message (lookup "cause" fields)
  | _ => Error message None
  end.

(** [obj.key] for a value that came out of a JSON body and a key that is
    none of the built-in properties of strings and arrays. *)
Definition get (obj : value) (key : string) : M value :=
  match obj with
  | VUndefined | VNull => throw (TypeError key)
  | VObj fields =>
      ret (match lookup key fields with Some v => v | None => VUndefined end)
  | _ => ret VUndefined
  end.

(** [api_call] of [src/unnamed/part_000]. *)
Definition api_call (gw : Gateway) (method : HttpMethod) (url : string)
    (data : value) : M value :=
  fun w =>
    let seen := List.length (requests w) in
    let w' := extend w [EvRequest method url data] in
    match gw seen method url data with
    | Delivered body => (Return body, w')
    | Rejected body => (Throw (new_Error "api error: " body), w')
    | Unreachable detail => (Throw (TransportError detail), w')
    end.

Definition strings (l : list string) : value := VArr (map VStr l).

Definition get_balance (gw : Gateway) (api_url addr : string) : M (value * value) :=
  let* response := api_call gw GET (api_url ++ "/balance/" ++ addr) VUndefined in
  let* balance := get response "balance" in
  let* nonce := get response "nonce" in
  ret (balance, nonce).

Definition view_call (gw : Gateway) (api_url contract method : string)
    (params : list string) (caller : string) : M (option string) :=
  let* response :=
    api_call gw POST (api_url ++ "/contract/call-view")
      (VObj [("contract", VStr contract); ("method", VStr method);
             ("params", strings params); ("caller", VStr caller)]) in
  let* status := get response "status" in
  if strict_eq_string status "success" then
    let* result := get response "result" in
    ret (match result with VStr s => Some s | _ => None end)
  else ret None.

(** The script [src/src/main.ts]: its [api_call] puts the response body
    into the message, its [view_call] is the same text as above. *)
Module Main.

Definition api_call (gw : Gateway) (method : HttpMethod) (url : string)
    (data : value) : M value :=
  fun w =>
    let seen := List.length (requests w) in
    let w' := extend w [EvRequest method url data] in
    match gw seen method url data with
    | Delivered body => (Return body, w')
    | Rejected body => (Throw (Error ("api error: " ++ ToString body) None), w')
    | Unreachable detail => (Throw (TransportError detail), w')
    end.

Definition view_call (gw : Gateway) (api_url contract method : string)
    (params : list string) (caller : string) : M (option string) :=
  let* response :=
    api_call gw POST (api_url ++ "/contract/call-view")
      (VObj [("contract", VStr contract); ("method", VStr method);
             ("params", strings params); ("caller", VStr caller)]) in
  let* status := get response "status" in
  if strict_eq_string status "success" then
    let* result := get response "result" in
    ret (match result with VStr s => Some s | _ => None end)
  else ret None.

End Main.

(** ** Bytes and base64 *)

(** [Buffer.from(text)]: the UTF-8 bytes of the text. *)
Definition Buffer_from (text : string) : list byte := list_byte_of_string text.

Definition base64_alphabet : string :=
  "ABCDEFGHIJKLMNOPQRSTUVWXYZabcdefghijklmnopqrstuvwxyz0123456789+/".

Definition sextet_char (n : N) : ascii :=
  match String.get (N.to_nat n) base64_alphabet with
  | Some c => c
  | None => "="%char
  end.

(** [buffer.toString('base64')]: three bytes become four characters, a
    shorter tail is padded with [=]. *)
Fixpoint base64 (bs : list byte) : string :=
  match bs with
  | [] => EmptyString
  | [a] =>
      let n := Byte.to_N a in
      String (sextet_char (n / 4))
        (String (sextet_char ((n mod 4) * 16)) "==")
  | [a; b] =>
      let n := Byte.to_N a in
      let m := Byte.to_N b in
      String (sextet_char (n / 4))
        (String (sextet_char ((n mod 4) * 16 + m / 16))
           (String (sextet_char ((m mod 16) * 4)) "="))
  | a :: b :: c :: rest =>
      let n := Byte.to_N a in
      let m := Byte.to_N b in
      let k := Byte.to_N c in
      String (sextet_char (n / 4))
        (String (sextet_char ((n mod 4) * 16 + m / 16))
           (String (sextet_char ((m mod 16) * 4 + k / 64))
              (String (sextet_char (k mod 64)) (base64 rest))))
  end%N.

(** ** The signature library

    [@noble/ed25519] is an external package: its signing, key derivation
    and verification are the operations of this interface. *)

Class Ed25519 : Type := {
  sign_bytes : list byte -> list byte -> list byte;
  public_key_bytes : list byte -> list byte;
  verify_bytes : list byte -> list byte -> list byte -> bool
}.

(** The law a signature scheme satisfies: a signature made with a key
    verifies under the public key derived from it. *)
Definition scheme_correct (E : Ed25519) : Prop :=
  forall message sk,
    List.length sk = 32%nat ->
    verify_bytes (sign_bytes message sk) message (public_key_bytes sk) = true.

(** Modelled from the spec: the key validation of the signature library
    (the package is not under src/).  A private key that is not of the
    scheme's length, 32 bytes, is refused with [InvalidKeyError]. *)
Definition check_private_key (sk : list byte) : M unit :=
  if Nat.eqb (List.length sk) 32 then ret tt else throw InvalidKeyError.

(** ** Transactions

    [interface Tx]: the six declared properties.  An object of the type
    may carry more properties ([other]); [call_contract] builds one with
    none. *)
Module Tx.

Record t : Type := mk {
  from : string;
  to_ : string;
  amount : string;
  nonce : number;
  ou : string;
  timestamp : number;
  other : list (string * value)
}.

End Tx.

Definition Tx : Type := Tx.t.

Section Client.

Context {E : Ed25519}.

(** [ed.sign(message, secretKey)] and [ed.getPublicKey(secretKey)]. *)
Definition ed_sign (message sk : list byte) : M (list byte) :=
  check_private_key sk ;; ret (sign_bytes message sk).

Definition ed_getPublicKey (sk : list byte) : M (list byte) :=
  check_private_key sk ;; ret (public_key_bytes sk).

Definition sign_tx (sk : list byte) (tx : Tx) : M string :=
  let blob :=
    stringify
      (VObj [("from", VStr (Tx.from tx)); ("to_", VStr (Tx.to_ tx));
             ("amount", VStr (Tx.amount tx)); ("nonce", VNum (Tx.nonce tx));
             ("ou", VStr (Tx.ou tx)); ("timestamp", VNum (Tx.timestamp tx))]) in
  let* signature := ed_sign (Buffer_from blob) sk in
  ret (base64 signature).

Definition call_contract (gw : Gateway) (api_url : string) (sk : list byte)
    (address : string) (nonce : Z) (contract method : string)
    (params : list string) : M value :=
  let* ms := Date_now in
  let timestamp := js_div1000 ms in
  let TxData :=
    Tx.mk address contract "0" (Int (js_add nonce 1)) "1" timestamp [] in
  console_log ("Using nonce: " ++ Number_toString (Tx.nonce TxData)) ;;
  let* signature := sign_tx sk TxData in
  let* pk := ed_getPublicKey sk in
  let public_key := base64 pk in
  let* response :=
    api_call gw POST (api_url ++ "/call-contract")
      (VObj [("contract", VStr contract); ("method", VStr method);
             ("params", strings params); ("caller", VStr address);
             ("nonce", VNum (Tx.nonce TxData));
             ("timestamp", VNum (Tx.timestamp TxData));
             ("signature", VStr signature);
             ("public_key", VStr public_key)]) in
  get response "tx_hash".

End Client.

(** ** Waiting for confirmation *)

Definition createLoading (message : string) : M unit :=
  emit (EvSpinnerStart message).

Definition stopLoading (success : bool) (message : string) : M unit :=
  (if success then emit (EvSpinnerSucceed message)
   else emit (EvSpinnerFail message)) ;;
  emit EvSpinnerStop.

Definition sleep (ms : Z) : M unit := emit (EvSleep ms).

(** A number used as a condition. *)
Definition truthy (z : Z) : bool := negb (z =? 0).

(** [max_wait_time && elapsed >= max_wait_time]. *)
Definition timed_out (max_wait_time elapsed : Z) : bool :=
  truthy max_wait_time && (max_wait_time <=? elapsed).

(** The [while (true)] loop of [wait_for_tx], entered with the current
    value of [elapsed].  [fuel] bounds the number of iterations the model
    follows; a run that needs more is [Pending]. *)
Fixpoint wait_loop (fuel : nat) (gw : Gateway) (api_url tx_hash : string)
    (max_wait_time elapsed : Z) : M unit :=
  match fuel with
  | O => fun w => (Pending, w)
  | S fuel' =>
      let elapsed := js_add elapsed 1 in
      let* response := api_call gw GET (api_url ++ "/tx/" ++ tx_hash) VUndefined in
      let* status := get response "status" in
      if strict_eq_string status "confirmed" then
        stopLoading true "Transaction confirmed!"
      else if timed_out max_wait_time elapsed then
        stopLoading false
          "Transaction not confirmed within the maximum wait time."
      else
        sleep 5000 ;;
        wait_loop fuel' gw api_url tx_hash max_wait_time elapsed
  end.

(** [max_wait_time] defaults to 90 when the argument is left out. *)
Definition wait_for_tx (fuel : nat) (gw : Gateway) (api_url tx_hash : string)
    (max_wait_time : option Z) : M string :=
  let max_wait_time :=
    match max_wait_time with Some m => m | None => 90 end in
  createLoading "Waiting for transaction confirmation..." ;;
  wait_loop fuel gw api_url tx_hash max_wait_time 0 ;;
  ret tx_hash.

(** ** The verifier's side

    What the remote verifier does with a submission, following the spec:
    it rebuilds the canonical text from the six field values, decodes the
    base64 signature and public key, and checks the signature. *)

(** The canonical text of a transaction as the spec words it: the six
    fields, in the fixed order, as one JSON object without any optional
    white space. *)
Definition canonical_encoding (from to_ amount : string) (nonce : number)
    (ou : string) (timestamp : number) : string :=
  "{" ++ quote "from" ++ ":" ++ quote from
    ++ "," ++ quote "to_" ++ ":" ++ quote to_
    ++ "," ++ quote "amount" ++ ":" ++ quote amount
    ++ "," ++ quote "nonce" ++ ":" ++ Number_toString nonce
    ++ "," ++ quote "ou" ++ ":" ++ quote ou
    ++ "," ++ quote "timestamp" ++ ":" ++ Number_toString timestamp
    ++ "}".





Fixpoint index_of (c : ascii) (s : string) : option nat :=
  match s with
  | EmptyString => None
  | String d rest =>
      if Ascii.eqb c d then Some O
      else match index_of c rest with
           | Some i => Some (S i)
           | None => None
           end
  end.

Definition char_sextet (c : ascii) : option N :=
  match index_of c base64_alphabet with
  | Some i => Some (N.of_nat i)
  | None => None
  end.

Definition pad : ascii := "="%char.

(** Decoding of padded base64 text. *)
Fixpoint base64_decode (s : string) : option (list byte) :=
  match s with
  | EmptyString => Some []
  | String c1 (String c2 (String c3 (String c4 rest))) =>
      match char_sextet c1, char_sextet c2 with
      | Some s1, Some s2 =>
          match Byte.of_N (s1 * 4 + s2 / 16)%N with
          | None => None
          | Some a =>
              if Ascii.eqb c3 pad then
                if Ascii.eqb c4 pad then
                  match rest with EmptyString => Some [a] | _ => None end
                else None
              else
                match char_sextet c3 with
                | None => None
                | Some s3 =>
                    match Byte.of_N ((s2 mod 16) * 16 + s3 / 4)%N with
                    | None => None
                    | Some b =>
                        if Ascii.eqb c4 pad then
                          match rest with
                          | EmptyString => Some [a; b]
                          | _ => None
                          end
                        else
                          match char_sextet c4 with
                          | None => None
                          | Some s4 =>
                              match Byte.of_N ((s3 mod 4) * 64 + s4)%N,
                                    base64_decode rest with
                              | Some c, Some tail => Some (a :: b :: c :: tail)
                              | _, _ => None
                              end
                          end
                    end
                end
          end
      | _, _ => None
      end
  | _ => None
  end.

Definition verifier_accepts {E : Ed25519} (signature_b64 public_key_b64 : string)
    (from to_ amount : string) (nonce : number) (ou : string)
    (timestamp : number) : bool :=
  match base64_decode signature_b64, base64_decode public_key_b64 with
  | Some signature, Some public_key =>
      verify_bytes signature
        (Buffer_from (canonical_encoding from to_ amount nonce ou timestamp))
        public_key
  | _, _ => false
  end.

(** ** Reading the canonical text back *)

Definition is_digit (c : ascii) : bool :=
  let n := nat_of_ascii c in Nat.leb 48 n && Nat.leb n 57.







(** ** Observations on a run *)

(** The events a computation adds to the world. *)
Definition added (w w' : World) : list Event :=
  skipn (List.length (events w)) (events w').

(** The polls of [wait_for_tx]: the [k]-th status query after the world
    [w]. *)
Definition poll (gw : Gateway) (w : World) (api_url tx_hash : string)
    (k : nat) : Reply :=
  gw (List.length (requests w) + k)%nat GET (api_url ++ "/tx/" ++ tx_hash)
    VUndefined.

(** The gateway answers with an object whose [status] is the text. *)
Definition reports (r : Reply) (status : string) : Prop :=
  exists fields,
    r = Delivered (VObj fields) /\ lookup "status" fields = Some (VStr status).

(** The gateway answers, and the answer is not a confirmation. *)
Definition unconfirmed (r : Reply) : Prop :=
  exists fields,
    r = Delivered (VObj fields) /\
    lookup "status" fields <> Some (VStr "confirmed").

Definition failed_poll (r : Reply) : option exn :=
  match r with
  | Delivered _ => None
  | Rejected body => Some (new_Error "api error: " body)
  | Unreachable detail => Some (TransportError detail)
  end.

Definition poll_event (api_url tx_hash : string) : Event :=
  EvRequest GET (api_url ++ "/tx/" ++ tx_hash) VUndefined.

(** [n] rounds of one poll and one pause. *)
Fixpoint rounds (api_url tx_hash : string) (n : nat) : list Event :=
  match n with
  | O => []
  | S n' => poll_event api_url tx_hash :: EvSleep 5000 :: rounds api_url tx_hash n'
  end.

(** The request of [view_call]. *)
Definition view_request (api_url contract method : string)
    (params : list string) (caller : string) : Event :=
  EvRequest POST (api_url ++ "/contract/call-view")
    (VObj [("contract", VStr contract); ("method", VStr method);
           ("params", strings params); ("caller", VStr caller)]).

(** The reply of the gateway to an event that is a request, made in the
    world [w]. *)
Definition reply_to (gw : Gateway) (w : World) (e : Event) : option Reply :=
  match e with
  | EvRequest method url data =>
      Some (gw (List.length (requests w)) method url data)
  | _ => None
  end.

(** The body of a request, read by property name. *)
Definition request_field (key : string) (e : Event) : option value :=
  match e with
  | EvRequest _ _ (VObj fields) => lookup key fields
  | _ => None
  end.

(** The request [call_contract] makes for a transaction with this nonce
    and timestamp. *)
Definition submission (api_url contract method : string) (params : list string)
    (address : string) (nonce timestamp : number)
    (signature public_key : string) : Event :=
  EvRequest POST (api_url ++ "/call-contract")
    (VObj [("contract", VStr contract); ("method", VStr method);
           ("params", strings params); ("caller", VStr address);
           ("nonce", VNum nonce); ("timestamp", VNum timestamp);
           ("signature", VStr signature); ("public_key", VStr public_key)]).

(** The value of [elapsed] after [n] more iterations of the loop. *)
Fixpoint elapsed_after (elapsed : Z) (n : nat) : Z :=
  match n with
  | O => elapsed
  | S n' => elapsed_after (js_add elapsed 1) n'
  end.

Definition started : Event :=
  EvSpinnerStart "Waiting for transaction confirmation...".

Definition shown_confirmed : list Event :=
  [EvSpinnerSucceed "Transaction confirmed!"; EvSpinnerStop].

Definition shown_timed_out : list Event :=
  [EvSpinnerFail "Transaction not confirmed within the maximum wait time.";
   EvSpinnerStop].

(** How many requests a computation made. *)
Definition polls (w w' : World) : nat :=
  List.length (filter is_request (added w w')).

(** ** Replies, read as values

    What the functions make of a reply, written as plain functions of the
    reply: the properties below compare the monadic code with them. *)

(** [obj.key] as a value, when [obj] is neither [null] nor [undefined]. *)
Definition member (obj : value) (key : string) : option value :=
  match obj with
  | VUndefined | VNull => None
  | VObj fields =>
      Some (match lookup key fields with Some v => v | None => VUndefined end)
  | _ => Some VUndefined
  end.

(** The ways the trace of [wait_for_tx] can end, by outcome: after the
    last poll the spinner shows the result and stops; a throw leaves the
    poll as the last event; a run still going has just paused. *)
Definition endings (api_url tx_hash : string) (r : outcome string)
    : list (list Event) :=
  match r with
  | Return _ =>
      [poll_event api_url tx_hash :: shown_confirmed;
       poll_event api_url tx_hash :: shown_timed_out]
  | Throw _ => [[poll_event api_url tx_hash]]
  | Pending => [[]]
  end.

(** [max_wait_time: number = 90]. *)
Definition budget_of (max_wait_time : option Z) : Z :=
  match max_wait_time with Some m => m | None => 90 end.

(** The request of [get_balance]. *)
Definition balance_request (api_url addr : string) : Event :=
  EvRequest GET (api_url ++ "/balance/" ++ addr) VUndefined.

(** What [view_call] makes of a body the gateway delivered. *)
Definition view_answer (body : value) : outcome (option string) :=
  match member body "status", member body "result" with
  | Some status, Some result =>
      if strict_eq_string status "success" then
        Return (match result with VStr s => Some s | _ => None end)
      else Return None
  | _, _ => Throw (TypeError "status")
  end.


Section Submission.

Context {E : Ed25519}.

(** The request [call_contract] makes in the world [w], for a key the
    library accepts. *)
Definition submission_in (w : World) (api_url : string) (sk : list byte)
    (address : string) (nonce : Z) (contract method : string)
    (params : list string) : Event :=
  let n := Int (js_add nonce 1) in
  let t := js_div1000 (now w) in
  submission api_url contract method params address n t
    (base64 (sign_bytes
       (Buffer_from (canonical_encoding address contract "0" n "1" t)) sk))
    (base64 (public_key_bytes sk)).

End Submission.

(** ** The answers object of [main]

    [const params: Record<string, string> = {}] filled by
    [params[param.name] = answer] and read by [Object.values(params)]: an
    ordinary object, whose own properties are kept in the order of the
    language: array indices first, ascending, then the other names in
    the order they were first assigned. *)

(** The number a property name stands for when it is an array index: the
    canonical decimal text of an integer from 0 to [2^32 - 2]. *)
Definition array_index (k : string) : option Z :=
  match NilEmpty.uint_of_string k with
  | Some d =>
      let n := Z.of_uint d in
      if String.eqb (decimal n) k && (n <=? 4294967294) then Some n else None
  | None => None
  end.

Definition has_key (k : string) (obj : list (string * string)) : bool :=
  existsb (fun kv => String.eqb (fst kv) k) obj.

Fixpoint replace_value (k v : string) (obj : list (string * string))
    : list (string * string) :=
  match obj with
  | [] => []
  | (k', v') :: rest =>
      if String.eqb k' k then (k', v) :: rest
      else (k', v') :: replace_value k v rest
  end.

Fixpoint insert_index (n : Z) (k v : string) (obj : list (string * string))
    : list (string * string) :=
  match obj with
  | [] => [(k, v)]
  | (k', v') :: rest =>
      match array_index k' with
      | Some n' =>
          if n' <? n then (k', v') :: insert_index n k v rest
          else (k, v) :: obj
      | None => (k, v) :: obj
      end
  end.

(** [obj[k] = v] for a string [v].  The name [__proto__] reaches the setter
    of [Object.prototype], which ignores a string: no property is made. *)
Definition assign (obj : list (string * string)) (k v : string)
    : list (string * string) :=
  if String.eqb k "__proto__" then obj
  else if has_key k obj then replace_value k v obj
  else match array_index k with
       | Some n => insert_index n k v obj
       | None => obj ++ [(k, v)]
       end.

Definition Object_values (obj : list (string * string)) : list string :=
  map snd obj.

(** The object after the loop over the parameters: [entries] are the
    names with the answers given, in the declared order. *)
Definition collect_params (entries : list (string * string))
    : list (string * string) :=
  fold_left (fun obj kv => assign obj (fst kv) (snd kv)) entries [].

(** A name that is kept where it is declared. *)
Definition ordinary (k : string) : Prop :=
  array_index k = None /\ k <> "__proto__".

(** Whether an assignment makes a new property. *)
Definition makes_property (obj : list (string * string)) (k : string) : bool :=
  negb (String.eqb k "__proto__") && negb (has_key k obj).

(** ** Text typed at the terminal

    [String.prototype.trim] and [parseInt].  On the UTF-8 bytes of a
    well-formed string, the white space and the line terminators of
    ECMAScript are the bytes 9 to 13 and 32, the two bytes of U+00A0, and
    the three bytes of U+1680, U+2000 to U+200A, U+2028, U+2029, U+202F,
    U+205F, U+3000 and U+FEFF. *)

Definition white1 (a : ascii) : bool :=
  let x := nat_of_ascii a in
  (Nat.leb 9 x && Nat.leb x 13) || Nat.eqb x 32.

Definition white2 (a b : ascii) : bool :=
  Nat.eqb (nat_of_ascii a) 194 && Nat.eqb (nat_of_ascii b) 160.

Definition white3 (a b c : ascii) : bool :=
  let x := nat_of_ascii a in
  let y := nat_of_ascii b in
  let z := nat_of_ascii c in
  (Nat.eqb x 225 && Nat.eqb y 154 && Nat.eqb z 128)
  || (Nat.eqb x 226 && Nat.eqb y 128
      && ((Nat.leb 128 z && Nat.leb z 138)
          || Nat.eqb z 168 || Nat.eqb z 169 || Nat.eqb z 175))
  || (Nat.eqb x 226 && Nat.eqb y 129 && Nat.eqb z 159)
  || (Nat.eqb x 227 && Nat.eqb y 128 && Nat.eqb z 128)
  || (Nat.eqb x 239 && Nat.eqb y 187 && Nat.eqb z 191).

(** [trimStart]. *)
Fixpoint trim_start (s : string) : string :=
  match s with
  | EmptyString => s
  | String a r1 =>
      if white1 a then trim_start r1
      else
        match r1 with
        | EmptyString => s
        | String b r2 =>
            if white2 a b then trim_start r2
            else
              match r2 with
              | EmptyString => s
              | String c r3 => if white3 a b c then trim_start r3 else s
              end
        end
  end.

(** The same from the end, on the bytes in reverse order. *)
Fixpoint trim_reversed (s : list ascii) : list ascii :=
  match s with
  | [] => s
  | a :: r1 =>
      if white1 a then trim_reversed r1
      else
        match r1 with
        | [] => s
        | b :: r2 =>
            if white2 b a then trim_reversed r2
            else
              match r2 with
              | [] => s
              | c :: r3 => if white3 c b a then trim_reversed r3 else s
              end
        end
  end.

Definition trim_end (s : string) : string :=
  string_of_list_ascii (rev (trim_reversed (rev (list_ascii_of_string s)))).

(** [s.trim()]. *)
Definition trim (s : string) : string := trim_end (trim_start s).

(** What [parseInt] and a subtraction can yield: an integer-valued double,
    NaN or an infinity.  The sign of a zero is left out: nothing below
    tells [-0] from [0]. *)
Inductive integer_or_not : Type :=
| NaN
| Finite (z : Z)
| Infinite (negative : bool).

(** The double nearest to an integer: from [2^1024 - 2^970] on it is an
    infinity. *)
Definition to_double (z : Z) : integer_or_not :=
  if 2 ^ 1024 - 2 ^ 970 <=? Z.abs z then Infinite (z <? 0)
  else Finite (round_double z).

(** The value of a character as a digit in the radix, if it is one. *)
Definition digit_of (radix : Z) (c : ascii) : option Z :=
  let n := Z.of_nat (nat_of_ascii c) in
  let d := if (48 <=? n) && (n <=? 57) then n - 48
           else if (97 <=? n) && (n <=? 122) then n - 87
           else if (65 <=? n) && (n <=? 90) then n - 55
           else 36 in
  if d <? radix then Some d else None.

(** The value of the longest prefix of digits. *)
Fixpoint digits_value (radix acc : Z) (s : string) : Z :=
  match s with
  | EmptyString => acc
  | String c rest =>
      match digit_of radix c with
      | Some d => digits_value radix (acc * radix + d) rest
      | None => acc
      end
  end.

(** [parseInt(text)], no radix given: white space is skipped, then a sign,
    then [0x] or [0X] switches to radix 16; the digits that follow are
    read up to the first character that is not one; no digit at all is
    NaN. *)
Definition parseInt (text : string) : integer_or_not :=
  let s := trim_start text in
  let negative := match s with String "-" _ => true | _ => false end in
  let s := match s with
           | String "-" r | String "+" r => r
           | _ => s
           end in
  let '(radix, s) :=
    match s with
    | String "0" (String "x" r) | String "0" (String "X" r) => (16, r)
    | _ => (10, s)
    end in
  match s with
  | EmptyString => NaN
  | String c _ =>
      match digit_of radix c with
      | Some _ =>
          let m := digits_value radix 0 s in
          to_double (if negative then - m else m)
      | None => NaN
      end
  end.

(** [x - 1]. *)
Definition minus_one (x : integer_or_not) : integer_or_not :=
  match x with
  | Finite z => Finite (round_double (z - 1))
  | other => other
  end.

(** [array[index]] for a number: the element when the number is an index
    below the length, [undefined] otherwise. *)
Definition element {A : Type} (array : list A) (index : integer_or_not)
    : option A :=
  match index with
  | Finite z => if 0 <=? z then nth_error array (Z.to_nat z) else None
  | _ => None
  end.

(** [contract.methods[parseInt(selectedMethod) - 1]]. *)
Definition selected {A : Type} (methods : list A) (selectedMethod : string)
    : option A :=
  element methods (minus_one (parseInt selectedMethod)).

(** What follows a number that was typed: nothing, or a character that is
    not a digit. *)
Definition not_a_digit_next (rest : string) : Prop :=
  match rest with
  | EmptyString => True
  | String c _ => is_digit c = false
  end.

(** The value of the digits a unary decimal writes, most significant
    first, after [acc]. *)
Fixpoint uint_value (acc : Z) (d : Decimal.uint) : Z :=
  match d with
  | Decimal.Nil => acc
  | Decimal.D0 d => uint_value (acc * 10 + 0) d
  | Decimal.D1 d => uint_value (acc * 10 + 1) d
  | Decimal.D2 d => uint_value (acc * 10 + 2) d
  | Decimal.D3 d => uint_value (acc * 10 + 3) d
  | Decimal.D4 d => uint_value (acc * 10 + 4) d
  | Decimal.D5 d => uint_value (acc * 10 + 5) d
  | Decimal.D6 d => uint_value (acc * 10 + 6) d
  | Decimal.D7 d => uint_value (acc * 10 + 7) d
  | Decimal.D8 d => uint_value (acc * 10 + 8) d
  | Decimal.D9 d => uint_value (acc * 10 + 9) d
  end.

(** ** The session of [main]

    [main] talks to a terminal: it prints the menu, asks for a choice and
    for the parameters of the chosen method, calls the gateway, and starts
    over.  A [Session] is the world of the calls above together with the
    lines still to be typed and what was written to the terminal besides
    the console lines: each question of [prompt] and each raw write, with
    the number of events that were recorded before it. *)

(** The two configuration files, with the properties [main] reads. *)
Module Param.
Record t : Type := mk {
  name : string;
  example : option value;      (* [None]: the property is absent *)
  max : option value
}.
End Param.

Module Method.
Record t : Type := mk {
  name : string;
  label : value;
  type : value;
  params : list Param.t
}.
End Method.

Module Wallet.
Record t : Type := mk {
  priv : string;
  addr : string;
  rpc : string
}.
End Wallet.

Module Interface.
Record t : Type := mk {
  contract : string;
  methods : list Method.t
}.
End Interface.

Inductive Output : Type :=
| Question (text : string)       (* [rl.question] *)
| Written (text : string).       (* [process.stdout.write] *)

Record Session : Type := mkSession {
  world : World;
  stdin : list string;                 (* the lines still to be typed *)
  terminal : list (nat * Output)
}.

(** How a run of [main] stops: [process.exit], a rejection nobody handles,
    a question with no line left to answer it, a run followed no further,
    or a value the model of [call_contract] has no place for. *)
Inductive stop : Type :=
| Exited (code : Z)
| Unhandled (e : exn)
| EndOfInput
| Unfinished
| Unmodelled.

Definition IO (A : Type) : Type := Session -> (A + stop) * Session.

Definition io_ret {A} (a : A) : IO A := fun s => (inl a, s).

Definition io_bind {A B} (m : IO A) (k : A -> IO B) : IO B :=
  fun s =>
    match m s with
    | (inl a, s') => k a s'
    | (inr e, s') => (inr e, s')
    end.

Declare Scope io_scope.
Delimit Scope io_scope with io.
Notation "'let*' x ':=' m 'in' k" := (io_bind m (fun x => k))
  (at level 10, x name, m at level 100, k at level 200) : io_scope.
Notation "m ';;' k" := (io_bind m (fun _ => k))
  (at level 100, k at level 200, right associativity) : io_scope.

Definition set_world (s : Session) (w : World) : Session :=
  mkSession w (stdin s) (terminal s).

(** An awaited call of one of the functions above. *)
Definition lift {A} (m : M A) : IO A :=
  fun s =>
    match m (world s) with
    | (Return a, w) => (inl a, set_world s w)
    | (Throw e, w) => (inr (Unhandled e), set_world s w)
    | (Pending, w) => (inr Unfinished, set_world s w)
    end.

Definition show (o : Output) : IO unit :=
  fun s =>
    (inl tt,
     mkSession (world s) (stdin s)
       (terminal s ++ [(List.length (events (world s)), o)])).

(** [prompt]: the question is written, the next line is read and
    trimmed. *)
Definition prompt (question : string) : IO string :=
  (show (Question question) ;;
   fun s =>
     match stdin s with
     | [] => (inr EndOfInput, s)
     | answer :: rest => (inl (trim answer), mkSession (world s) rest (terminal s))
     end)%io.

Definition process_exit {A} (code : Z) : IO A :=
  fun s => (inr (Exited code), s).

Definition unmodelled {A} : IO A := fun s => (inr Unmodelled, s).

Definition nl : string := str1 (ascii_of_nat 10).
Definition tab : string := str1 (ascii_of_nat 9).

(** [ToBoolean]. *)
Definition ToBoolean (v : value) : bool :=
  match v with
  | VUndefined | VNull => false
  | VBool b => b
  | VNum (Int z) => negb (z =? 0)
  | VNum (Milli ms) => negb (ms =? 0)
  | VStr s => negb (String.eqb s EmptyString)
  | VArr _ | VObj _ => true
  end.

(** The text [main] asks a parameter with. *)
Definition prompt_text (param : Param.t) : string :=
  Param.name param
  ++ match Param.example param with
     | Some v => if ToBoolean v then " (e.g. " ++ ToString v ++ ")" else EmptyString
     | None => EmptyString
     end
  ++ match Param.max param with
     | Some v => if ToBoolean v then " [max " ++ ToString v ++ "]" else EmptyString
     | None => EmptyString
     end
  ++ ": ".

(** The loop that prints the menu, [id] counting. *)
Fixpoint show_methods (id : Z) (methods : list Method.t) : M unit :=
  match methods with
  | [] => ret tt
  | method :: rest =>
      let id := js_add id 1 in
      console_log (tab ++ decimal id ++ ". " ++ Method.name method ++ " - "
                   ++ ToString (Method.label method)) ;;
      show_methods id rest
  end.

(** The loop that asks for the parameters and fills [params]. *)
Fixpoint ask_params (params : list Param.t) (obj : list (string * string))
    : IO (list (string * string)) :=
  match params with
  | [] => io_ret obj
  | param :: rest =>
      (let* answer := prompt (prompt_text param) in
       ask_params rest (assign obj (Param.name param) answer))%io
  end.

(** [waitTx.toLowerCase() === 'y']: the only texts whose lower case is [y]
    are [y] and [Y]. *)
Definition lower_is_y (waitTx : string) : bool :=
  String.eqb waitTx "y" || String.eqb waitTx "Y".

(** [base64ToUnit8Array]: [Uint8Array.from(Buffer.from(b64, 'base64'))],
    for padded base64 text in the standard alphabet.  [None]: the text is
    not of that form, and what the lenient decoder of Node makes of it is
    not modelled. *)
Definition base64ToUnit8Array (b64 : string) : option (list byte) :=
  base64_decode b64.

Section Session.

Context {E : Ed25519}.

(** The [switch] of [main] on the type of the selected method. *)
Definition dispatch (fuel : nat) (gw : Gateway) (wallet : Wallet.t)
    (contract : Interface.t) (nonce : value)
    (selectedMethodObj : option Method.t) : IO unit :=
  (let sk := base64ToUnit8Array (Wallet.priv wallet) in
   let address := Wallet.addr wallet in
   let api_url := Wallet.rpc wallet in
   let contract_address := Interface.contract contract in
   match selectedMethodObj with
   | Some method =>
       if strict_eq_string (Method.type method) "view" then
         let* params := ask_params (Method.params method) [] in
         let* callContract :=
           lift (view_call gw api_url contract_address (Method.name method)
                   (Object_values params) address) in
         lift (console_log
                 ("Result: " ++ match callContract with
                                | Some result => result
                                | None => "null"
                                end))
       else if strict_eq_string (Method.type method) "call" then
         let* params := ask_params (Method.params method) [] in
         let* txHash :=
           match sk, nonce with
           | Some sk, VNum (Int nonce) =>
               lift (call_contract gw api_url sk address nonce contract_address
                       (Method.name method) (Object_values params))
           | _, _ => unmodelled
           end in
         lift (console_log "Transaction submitted.") ;;
         let* waitTx := prompt "Wait for transaction confirmation? (y/n): " in
         (if lower_is_y waitTx then
            lift (wait_for_tx fuel gw api_url (ToString txHash) (Some 5)) ;;
            io_ret tt
          else io_ret tt) ;;
         lift (console_log ("Transaction hash: " ++ ToString txHash))
       else
         lift (console_log "Invalid selection. Please try again.")
   | None =>
       lift (console_log "Invalid selection. Please try again.")
   end)%io.

(** One pass through [main], up to its call of itself.  [fuel] bounds the
    iterations of [wait_for_tx] that are followed. *)
Definition main_round (fuel : nat) (gw : Gateway) (wallet : Wallet.t)
    (contract : Interface.t) : IO unit :=
  (let address := Wallet.addr wallet in
   let api_url := Wallet.rpc wallet in
   lift (console_log ("Address: " ++ address)) ;;
   let* response := lift (get_balance gw api_url address) in
   let balance := fst response in
   let nonce := snd response in
   lift (console_log ("Balance: " ++ ToString balance)) ;;
   lift (console_log (nl ++ "Select method:" ++ nl)) ;;
   lift (show_methods 0 (Interface.methods contract)) ;;
   lift (console_log (nl ++ tab ++ "0. Exit")) ;;
   let* selectedMethod := prompt (nl ++ "Choice: ") in
   (if String.eqb selectedMethod "0" then
      lift (console_log "Exiting...") ;; process_exit 0
    else io_ret tt) ;;
   dispatch fuel gw wallet contract nonce
     (selected (Interface.methods contract) selectedMethod) ;;
   prompt (nl ++ "Press Enter to continue...") ;;
   show (Written (String (ascii_of_nat 27) "c")))%io.

(** [main]: the passes one after the other.  [clock i] is the reading of
    [Date.now()] during pass [i]; [passes] bounds how many are followed. *)
Fixpoint main (passes fuel : nat) (gw : Gateway) (wallet : Wallet.t)
    (contract : Interface.t) (clock : nat -> Z) (i : nat) (s : Session)
    : stop * Session :=
  match passes with
  | O => (Unfinished, s)
  | S passes' =>
      let s := set_world s (mkWorld (clock i) (events (world s))) in
      match main_round fuel gw wallet contract s with
      | (inl _, s') => main passes' fuel gw wallet contract clock (S i) s'
      | (inr e, s') => (e, s')
      end
  end.

End Session.

(** *** Observations on a session *)

(** The lines of the menu, one for each method. *)
Fixpoint menu_lines (id : Z) (methods : list Method.t) : list Event :=
  match methods with
  | [] => []
  | method :: rest =>
      EvConsole (tab ++ decimal (js_add id 1) ++ ". " ++ Method.name method
                 ++ " - " ++ ToString (Method.label method))
      :: menu_lines (js_add id 1) rest
  end.





(** An event that is no request, or a request to this gateway. *)
Definition to_gateway (api_url : string) (e : Event) : Prop :=
  match e with
  | EvRequest _ url _ => exists path, url = api_url ++ path
  | _ => True
  end.

(** How the balance query fails, if it does. *)
Definition balance_failure (r : Reply) : option exn :=
  match r with
  | Delivered body =>
      match member body "balance" with
      | Some _ => None
      | None => Some (TypeError "balance")
      end
  | Rejected body => Some (new_Error "api error: " body)
  | Unreachable detail => Some (TransportError detail)
  end.


(** A computation that only adds events to the world, and no request
    but to the gateway. *)
Definition adds {A} (api_url : string) (m : M A) : Prop :=
  forall w, exists l,
    snd (m w) = extend w l /\ Forall (to_gateway api_url) l.

Definition io_adds {A} (api_url : string) (m : IO A) : Prop :=
  forall s, exists l,
    world (snd (m s)) = extend (world s) l /\ Forall (to_gateway api_url) l.

(** The statements of [src/src/main.ts] after its functions: a view call
    of the first method of the interface, with no parameters, and its
    result on the console. *)
Definition main_ts (gw : Gateway) (wallet : Wallet.t) (contract : Interface.t)
    : M unit :=
  let* greeting :=
    Main.view_call gw (Wallet.rpc wallet) (Interface.contract contract)
      (match Interface.methods contract with
       | method :: _ => Method.name method
       | [] => EmptyString
       end)
      [] (Wallet.addr wallet) in
  console_log (match greeting with Some text => text | None => "null" end).

(** ** Tactics *)

(** Quotient and remainder by a constant, as fresh variables with their
    defining inequalities. *)
Ltac euclid x d :=
  let Hq := fresh "Hq" in
  let Hr := fresh "Hr" in
  let q := fresh "q" in
  let r := fresh "r" in
  let Eq := fresh in
  let Er := fresh in
  assert (Hq : x = (d * (x / d) + x mod d)%N) by (apply N.div_mod; discriminate);
  assert (Hr : (x mod d < d)%N) by (apply N.mod_lt; discriminate);
  remember (x / d)%N as q eqn:Eq;
  remember (x mod d)%N as r eqn:Er;
  clear Eq Er.

(** ** Stand-ins for running the model

    A toy scheme with the interface of the signature library: it is
    correct in the sense of [scheme_correct] and nothing more. *)

Definition mock_ed25519 : Ed25519 := {|
  sign_bytes message sk := (rev sk ++ message)%list;
  public_key_bytes sk := rev sk;
  verify_bytes signature message public_key :=
    if list_eq_dec Byte.byte_eq_dec signature (public_key ++ message)%list
    then true else false
|}.

Definition key32 : list byte := repeat x01 32.
Definition key31 : list byte := repeat x01 31.

Definition world0 : World := mkWorld 1700000000123 [].

(** Accepts every submission with the hash of the spec's scenario. *)
Definition gw_accept : Gateway :=
  fun _ _ _ _ => Delivered (VObj [("tx_hash", VStr "abc123")]).

(** Reports [pending] until the [n]-th request, [confirmed] from then on. *)
Definition gw_confirm_at (n : nat) : Gateway :=
  fun seen _ _ _ =>
    if Nat.ltb (S seen) n then Delivered (VObj [("status", VStr "pending")])
    else Delivered (VObj [("status", VStr "confirmed")]).

Definition gw_pending : Gateway :=
  fun _ _ _ _ => Delivered (VObj [("status", VStr "pending")]).

Definition gw_down : Gateway := fun _ _ _ _ => Unreachable "ECONNREFUSED".

Definition gw_reject (body : value) : Gateway := fun _ _ _ _ => Rejected body.

Definition gw_reply (body : value) : Gateway := fun _ _ _ _ => Delivered body.

(** ** Stand-ins for running a session *)

Definition wallet0 : Wallet.t := Wallet.mk (base64 key32) "A" "http://gw".

Definition contract0 : Interface.t :=
  Interface.mk "C"
    [Method.mk "get" (VStr "Read the counter") (VStr "view") [];
     Method.mk "inc" (VStr "Add to the counter") (VStr "call")
       [Param.mk "by" (Some (VStr "1")) None];
     Method.mk "old" (VStr "Retired") (VStr "retired") []].

(** A gateway that reports balance 10 and nonce 5 to the first request and
    accepts whatever comes after it. *)
Definition gw_session : Gateway :=
  fun seen _ _ _ =>
    match seen with
    | O => Delivered (VObj [("balance", VStr "10"); ("nonce", VNum (Int 5))])
    | _ => Delivered (VObj [("status", VStr "success"); ("result", VStr "42");
                            ("tx_hash", VStr "abc123")])
    end.

Definition session0 (lines : list string) : Session :=
  mkSession world0 lines [].

(** * Properties *)

(** ** Numbers *)

Lemma round_double_small (z : Z) : Z.abs z < 2 ^ 53 -> round_double z = z.
Proof.
  intros H. unfold round_double.
  destruct (Z.ltb_spec (Z.abs z) (2 ^ 53)); [reflexivity | lia].
Qed.

Lemma round_double_2_53 : round_double (2 ^ 53) = 2 ^ 53.
Proof. reflexivity. Qed.

(** Adding one is exact on the counters below [2^53]. *)
Lemma js_add_one_exact (n : Z) : 0 <= n < 2 ^ 53 -> js_add n 1 = n + 1.
Proof.
  intros [H0 H1]. unfold js_add.
  destruct (Z.eq_dec (n + 1) (2 ^ 53)) as [e | ne].
  - rewrite e. apply round_double_2_53.
  - apply round_double_small. lia.
Qed.

(** At [2^53] it is not: the sum rounds back to [2^53]. *)
Lemma js_add_one_stuck : js_add (2 ^ 53) 1 = 2 ^ 53.
Proof. reflexivity. Qed.

(** ** Events recorded in the world *)

Lemma extend_extend (w : World) (l1 l2 : list Event) :
  extend (extend w l1) l2 = extend w (l1 ++ l2).
Proof. unfold extend. simpl. now rewrite <- app_assoc. Qed.

Lemma extend_nil (w : World) : extend w [] = w.
Proof. destruct w. unfold extend. simpl. now rewrite app_nil_r. Qed.

Lemma requests_extend (w : World) (l : list Event) :
  requests (extend w l) = (requests w ++ filter is_request l)%list.
Proof. unfold requests, extend. simpl. apply filter_app. Qed.

Lemma added_extend (w : World) (l : list Event) : added w (extend w l) = l.
Proof.
  unfold added, extend. simpl.
  rewrite skipn_app, skipn_all, Nat.sub_diag. reflexivity.
Qed.

Lemma api_call_run (gw : Gateway) (method : HttpMethod) (url : string)
    (data : value) (w : World) :
  api_call gw method url data w =
  (match gw (List.length (requests w)) method url data with
   | Delivered body => Return body
   | Rejected body => Throw (new_Error "api error: " body)
   | Unreachable detail => Throw (TransportError detail)
   end,
   extend w [EvRequest method url data]).
Proof.
  unfold api_call. destruct (gw _ method url data); reflexivity.
Qed.

Lemma get_world (obj : value) (key : string) (w : World) :
  snd (get obj key w) = w.
Proof. destruct obj; reflexivity. Qed.

Lemma get_object (fields : list (string * value)) (key : string) (w : World) :
  get (VObj fields) key w =
  (Return (match lookup key fields with Some v => v | None => VUndefined end), w).
Proof. reflexivity. Qed.

(** ** Strings and JSON text *)

Lemma append_assoc (a b c : string) : (a ++ b) ++ c = a ++ (b ++ c).
Proof.
  induction a as [| x a IH]; simpl; [reflexivity | now rewrite IH].
Qed.

(** [JSON.stringify] of the object literal of [sign_tx] is the canonical
    text of the six values. *)
Lemma stringify_six_fields (from to_ amount : string) (nonce : number)
    (ou : string) (timestamp : number) :
  stringify
    (VObj [("from", VStr from); ("to_", VStr to_); ("amount", VStr amount);
           ("nonce", VNum nonce); ("ou", VStr ou);
           ("timestamp", VNum timestamp)]) =
  canonical_encoding from to_ amount nonce ou timestamp.
Proof.
  unfold canonical_encoding. cbn [stringify join].
  repeat rewrite append_assoc. reflexivity.
Qed.








(** ** The canonical text determines the six values *)





















(** ** Base64 *)

Lemma below_64 (n : N) : (n < 64)%N -> In n (map N.of_nat (seq 0 64)).
Proof.
  intros H. rewrite <- (N2Nat.id n). apply in_map. apply in_seq. lia.
Qed.

Lemma sextet_roundtrip (n : N) :
  (n < 64)%N ->
  char_sextet (sextet_char n) = Some n /\ Ascii.eqb (sextet_char n) pad = false.
Proof.
  intros H.
  assert (A : forallb (fun m =>
            match char_sextet (sextet_char m) with
            | Some m' => N.eqb m' m
            | None => false
            end && negb (Ascii.eqb (sextet_char m) pad))
          (map N.of_nat (seq 0 64)) = true) by (vm_compute; reflexivity).
  rewrite forallb_forall in A. specialize (A n (below_64 n H)).
  apply andb_true_iff in A. destruct A as [A B].
  destruct (char_sextet (sextet_char n)) as [m |]; [| discriminate].
  apply N.eqb_eq in A. subst m. split; [reflexivity |].
  now apply negb_true_iff.
Qed.

Lemma sextets_below_64 (n m k : N) :
  (n < 256 -> m < 256 -> k < 256 ->
   n / 4 < 64 /\ n mod 4 * 16 + m / 16 < 64 /\ n mod 4 * 16 < 64 /\
   m mod 16 * 4 + k / 64 < 64 /\ m mod 16 * 4 < 64 /\ k mod 64 < 64)%N.
Proof.
  intros Hn Hm Hk.
  euclid n 4%N. euclid m 16%N. euclid k 64%N. lia.
Qed.

Lemma first_byte (n m : N) :
  (n < 256 -> m < 256 -> n / 4 * 4 + (n mod 4 * 16 + m / 16) / 16 = n)%N.
Proof.
  intros Hn Hm. euclid n 4%N. euclid m 16%N. euclid (r * 16 + q0)%N 16%N. lia.
Qed.

Lemma second_byte (n m k : N) :
  (n < 256 -> m < 256 -> k < 256 -> (n mod 4 * 16 + m / 16) mod 16 * 16 + (m mod 16 * 4 + k / 64) / 4 = m)%N.
Proof.
  intros Hn Hm Hk. euclid n 4%N. euclid m 16%N. euclid k 64%N.
  euclid (r * 16 + q0)%N 16%N. euclid (r0 * 4 + q1)%N 4%N. lia.
Qed.

Lemma third_byte (m k : N) :
  (m < 256 -> k < 256 -> (m mod 16 * 4 + k / 64) mod 4 * 64 + k mod 64 = k)%N.
Proof.
  intros Hm Hk. euclid m 16%N. euclid k 64%N. euclid (r * 4 + q0)%N 4%N. lia.
Qed.

Lemma to_N_below_256 (a : byte) : (Byte.to_N a < 256)%N.
Proof. pose proof (Byte.to_N_bounded a). lia. Qed.

Lemma list_ind3 (A : Type) (P : list A -> Prop) :
  P [] -> (forall a, P [a]) -> (forall a b, P [a; b]) ->
  (forall a b c l, P l -> P (a :: b :: c :: l)) ->
  forall l, P l.
Proof.
  intros H0 H1 H2 H3.
  fix IH 1. intros [| a [| b [| c l]]];
    [exact H0 | apply H1 | apply H2 | apply H3; apply IH].
Qed.

Lemma base64_decode_base64 (bs : list byte) : base64_decode (base64 bs) = Some bs.
Proof.
  induction bs as [| a | a b | a b c rest IH] using list_ind3.
  - reflexivity.
  - pose proof (to_N_below_256 a) as Ha.
    destruct (sextets_below_64 (to_N a) 0 0 Ha) as (S1 & _ & S2 & _); try lia.
    cbn [base64 base64_decode].
    rewrite (proj1 (sextet_roundtrip _ S1)), (proj1 (sextet_roundtrip _ S2)).
    pose proof (first_byte (to_N a) 0 Ha) as F. cbn in F.
    rewrite N.add_0_r in F.
    rewrite F by lia. rewrite Byte.of_to_N. reflexivity.
  - pose proof (to_N_below_256 a) as Ha. pose proof (to_N_below_256 b) as Hb.
    destruct (sextets_below_64 (to_N a) (to_N b) 0 Ha Hb) as (S1 & S2 & _ & _ & S3 & _); try lia.
    cbn [base64 base64_decode].
    rewrite (proj1 (sextet_roundtrip _ S1)), (proj1 (sextet_roundtrip _ S2)).
    rewrite (first_byte _ _ Ha Hb), Byte.of_to_N.
    rewrite (proj2 (sextet_roundtrip _ S3)), (proj1 (sextet_roundtrip _ S3)).
    pose proof (second_byte (to_N a) (to_N b) 0 Ha Hb) as F. cbn in F.
    rewrite N.add_0_r in F. rewrite F by lia. rewrite Byte.of_to_N. reflexivity.
  - pose proof (to_N_below_256 a) as Ha. pose proof (to_N_below_256 b) as Hb.
    pose proof (to_N_below_256 c) as Hc.
    destruct (sextets_below_64 (to_N a) (to_N b) (to_N c) Ha Hb Hc)
      as (S1 & S2 & _ & S3 & _ & S4).
    cbn [base64 base64_decode].
    rewrite (proj1 (sextet_roundtrip _ S1)), (proj1 (sextet_roundtrip _ S2)).
    rewrite (first_byte _ _ Ha Hb), Byte.of_to_N.
    rewrite (proj2 (sextet_roundtrip _ S3)), (proj1 (sextet_roundtrip _ S3)).
    rewrite (second_byte _ _ _ Ha Hb Hc), Byte.of_to_N.
    rewrite (proj2 (sextet_roundtrip _ S4)), (proj1 (sextet_roundtrip _ S4)).
    rewrite (third_byte _ _ Hb Hc), Byte.of_to_N, IH. reflexivity.
Qed.

(** ** Building, signing and submitting *)

Section ClientProperties.

Context {E : Ed25519}.

(** [sign_tx] either returns the base64 signature of the six-field text or
    throws the library's key error; it leaves the world as it found it. *)
Lemma sign_tx_run (sk : list byte) (tx : Tx) (w : World) :
  sign_tx sk tx w =
  (if Nat.eqb (List.length sk) 32 then
     Return (base64 (sign_bytes
       (Buffer_from (canonical_encoding (Tx.from tx) (Tx.to_ tx) (Tx.amount tx)
                       (Tx.nonce tx) (Tx.ou tx) (Tx.timestamp tx))) sk))
   else Throw InvalidKeyError, w).
Proof.
  unfold sign_tx. rewrite stringify_six_fields.
  unfold ed_sign, check_private_key, bind.
  destruct (Nat.eqb (List.length sk) 32); reflexivity.
Qed.

(** The whole trace of [call_contract]: one console line, then one request
    when the key is accepted and none when it is not. *)
Lemma call_contract_added (gw : Gateway) (api_url : string) (sk : list byte)
    (address : string) (nonce : Z) (contract method : string)
    (params : list string) (w : World) :
  let tx := Tx.mk address contract "0" (Int (js_add nonce 1)) "1"
              (js_div1000 (now w)) [] in
  added w (snd (call_contract gw api_url sk address nonce contract method params w)) =
  EvConsole ("Using nonce: " ++ decimal (js_add nonce 1)) ::
  match fst (sign_tx sk tx w) with
  | Return signature =>
      [submission api_url contract method params address (Tx.nonce tx)
         (Tx.timestamp tx) signature (base64 (public_key_bytes sk))]
  | _ => []
  end.
Proof.
  intros tx. subst tx. rewrite sign_tx_run.
  unfold call_contract, bind, Date_now, console_log, emit.
  rewrite sign_tx_run. simpl.
  unfold ed_getPublicKey, check_private_key, bind.
  destruct (Nat.eqb (List.length sk) 32) eqn:Hk; simpl.
  - rewrite api_call_run, extend_extend. simpl.
    match goal with
    | |- context [match ?g with Delivered _ => _ | Rejected _ => _ | Unreachable _ => _ end] =>
        destruct g as [body | body | detail]
    end; simpl; [rewrite get_world | |]; apply added_extend.
  - apply added_extend.
Qed.

(** C1 (as amended): for a fetched nonce that is an integer with
    [0 <= nonce < 2^53], one call of [call_contract] logs and signs the
    transaction with nonce [nonce + 1], amount ["0"] and operation-unit
    marker ["1"], and makes exactly one request, the submission of that
    nonce (none at all when the key is refused): a nonce is never
    submitted twice within one call. *)
Theorem call_contract_next_nonce (gw : Gateway) (api_url : string)
    (sk : list byte) (address : string) (nonce : Z) (contract method : string)
    (params : list string) (w : World) :
  0 <= nonce < 2 ^ 53 ->
  let tx := Tx.mk address contract "0" (Int (nonce + 1)) "1"
              (js_div1000 (now w)) [] in
  added w (snd (call_contract gw api_url sk address nonce contract method params w)) =
  EvConsole ("Using nonce: " ++ decimal (nonce + 1)) ::
  match fst (sign_tx sk tx w) with
  | Return signature =>
      [submission api_url contract method params address (Int (nonce + 1))
         (js_div1000 (now w)) signature (base64 (public_key_bytes sk))]
  | _ => []
  end.
Proof.
  intros Hn tx. subst tx.
  rewrite call_contract_added. cbv zeta.
  rewrite (js_add_one_exact nonce Hn). reflexivity.
Qed.




Lemma call_contract_bad_key (gw : Gateway) (api_url : string)
    (sk : list byte) (address : string) (nonce : Z) (contract method : string)
    (params : list string) (w : World) :
  List.length sk <> 32%nat ->
  fst (call_contract gw api_url sk address nonce contract method params w) =
  Throw InvalidKeyError.
Proof.
  intros H. unfold call_contract, bind, Date_now, console_log, emit.
  rewrite sign_tx_run.
  destruct (Nat.eqb_spec (List.length sk) 32); [contradiction | reflexivity].
Qed.

(** C8: a private key whose length is not the scheme's 32 bytes makes
    [sign_tx] fail with [InvalidKeyError] (the check of the library, as
    [check_private_key] models it from the spec), and [call_contract]
    fails with it without having made any request. *)
Theorem invalid_key_fails_before_network (sk : list byte) :
  List.length sk <> 32%nat ->
  (forall tx w, sign_tx sk tx w = (Throw InvalidKeyError, w)) /\
  (forall gw api_url address nonce contract method params w,
     let run := call_contract gw api_url sk address nonce contract method params w in
     fst run = Throw InvalidKeyError /\
     filter is_request (added w (snd run)) = []).
Proof.
  intros H. split.
  - intros tx w. rewrite sign_tx_run.
    destruct (Nat.eqb_spec (List.length sk) 32); [contradiction | reflexivity].
  - intros gw api_url address nonce contract method params w run. subst run.
    split; [now apply call_contract_bad_key |].
    rewrite call_contract_added. cbv zeta. rewrite sign_tx_run.
    destruct (Nat.eqb_spec (List.length sk) 32); [contradiction | reflexivity].
Qed.



(** C7: for a key of the scheme's length, [sign_tx] yields the same
    base64 signature on every run, whatever the state of the world, and
    changes nothing; a verifier that rebuilds the canonical text from the
    six values and decodes the signature and the derived public key
    accepts it (given that the signature scheme is correct). *)
Theorem sign_tx_deterministic_and_verifiable (sk : list byte) (tx : Tx) :
  scheme_correct E ->
  List.length sk = 32%nat ->
  exists signature,
    (forall w, sign_tx sk tx w = (Return signature, w)) /\
    verifier_accepts signature (base64 (public_key_bytes sk))
      (Tx.from tx) (Tx.to_ tx) (Tx.amount tx) (Tx.nonce tx) (Tx.ou tx)
      (Tx.timestamp tx) = true.
Proof.
  intros Hscheme Hlen.
  eexists. split.
  - intros w. rewrite sign_tx_run, Hlen. reflexivity.
  - unfold verifier_accepts. rewrite !base64_decode_base64.
    now apply Hscheme.
Qed.

(** When the gateway refuses the submission, the error of [api_call]
    leaves [call_contract] unchanged, after the one request. *)
Lemma call_contract_rejected (gw : Gateway) (api_url : string)
    (sk : list byte) (address : string) (nonce : Z) (contract method : string)
    (params : list string) (w : World) (body : value) :
  List.length sk = 32%nat ->
  (forall seen method url data, gw seen method url data = Rejected body) ->
  fst (call_contract gw api_url sk address nonce contract method params w) =
  Throw (new_Error "api error: " body).
Proof.
  intros Hlen Hgw.
  unfold call_contract, bind, Date_now, console_log, emit.
  rewrite sign_tx_run, Hlen. simpl.
  unfold ed_getPublicKey, check_private_key, bind. rewrite Hlen. simpl.
  rewrite api_call_run, Hgw. reflexivity.
Qed.

End ClientProperties.

(** ** Polling *)

Lemma elapsed_after_S (e : Z) (n : nat) :
  elapsed_after e (S n) = js_add (elapsed_after e n) 1.
Proof.
  revert e. induction n as [| n IH]; intros e; [reflexivity |].
  change (elapsed_after e (S (S n))) with (elapsed_after (js_add e 1) (S n)).
  rewrite IH. reflexivity.
Qed.

(** The counter follows the number of polls up to [2^53] and stays
    there. *)
Lemma elapsed_after_zero (n : nat) :
  elapsed_after 0 n = Z.min (Z.of_nat n) (2 ^ 53).
Proof.
  induction n as [| n IH]; [reflexivity |].
  rewrite elapsed_after_S, IH.
  destruct (Z.lt_ge_cases (Z.of_nat n) (2 ^ 53)) as [Hlt | Hge].
  - rewrite Z.min_l by lia. rewrite js_add_one_exact by lia. lia.
  - rewrite Z.min_r by lia. rewrite js_add_one_stuck. lia.
Qed.

Lemma poll_extend (gw : Gateway) (w : World) (api_url tx_hash : string)
    (l : list Event) (k : nat) :
  poll gw (extend w l) api_url tx_hash k =
  poll gw w api_url tx_hash (List.length (filter is_request l) + k).
Proof.
  unfold poll. rewrite requests_extend, length_app.
  now rewrite Nat.add_assoc.
Qed.

Lemma poll_zero (gw : Gateway) (w : World) (api_url tx_hash : string) :
  gw (List.length (requests w)) GET (api_url ++ "/tx/" ++ tx_hash) VUndefined =
  poll gw w api_url tx_hash 0.
Proof. unfold poll. now rewrite Nat.add_0_r. Qed.

Lemma reports_unconfirmed (r : Reply) : reports r "pending" -> unconfirmed r.
Proof.
  intros [fields [Hr Hs]]. exists fields. split; [exact Hr |].
  rewrite Hs. discriminate.
Qed.

Lemma status_not_confirmed (fields : list (string * value)) :
  lookup "status" fields <> Some (VStr "confirmed") ->
  strict_eq_string
    (match lookup "status" fields with Some v => v | None => VUndefined end)
    "confirmed" = false.
Proof.
  intros H. destruct (lookup "status" fields) as [[| | | | s | |] |];
    try reflexivity.
  simpl. destruct (String.eqb_spec s "confirmed"); [| reflexivity].
  subst s. now elim H.
Qed.

(** One iteration that neither confirms nor times out: a poll, a pause,
    and the loop goes on with the counter advanced. *)
Lemma wait_loop_round (fuel : nat) (gw : Gateway) (api_url tx_hash : string)
    (max e : Z) (w : World) :
  unconfirmed (poll gw w api_url tx_hash 0) ->
  timed_out max (js_add e 1) = false ->
  wait_loop (S fuel) gw api_url tx_hash max e w =
  wait_loop fuel gw api_url tx_hash max (js_add e 1)
    (extend w (rounds api_url tx_hash 1)).
Proof.
  intros [fields [Hr Hs]] Ht. rewrite <- poll_zero in Hr.
  cbn [wait_loop]. unfold bind at 1. rewrite api_call_run, Hr.
  unfold bind at 1. rewrite get_object.
  rewrite (status_not_confirmed fields Hs), Ht.
  unfold bind, sleep, emit. rewrite extend_extend. reflexivity.
Qed.

(** [n] such iterations in a row. *)
Lemma wait_loop_rounds (n fuel : nat) (gw : Gateway) (api_url tx_hash : string)
    (max : Z) :
  forall (e : Z) (w : World),
    (forall k, (k < n)%nat -> unconfirmed (poll gw w api_url tx_hash k)) ->
    (forall k, (k < n)%nat -> timed_out max (elapsed_after e (S k)) = false) ->
    wait_loop (n + fuel) gw api_url tx_hash max e w =
    wait_loop fuel gw api_url tx_hash max (elapsed_after e n)
      (extend w (rounds api_url tx_hash n)).
Proof.
  induction n as [| n IH]; intros e w Hp Ht.
  - simpl. now rewrite extend_nil.
  - change (S n + fuel)%nat with (S (n + fuel)).
    rewrite wait_loop_round.
    + rewrite IH.
      * rewrite extend_extend. reflexivity.
      * intros k Hk. rewrite poll_extend. simpl. apply Hp. lia.
      * intros k Hk. apply (Ht (S k)). lia.
    + apply Hp. lia.
    + apply (Ht O). lia.
Qed.

(** The iteration whose poll is answered [confirmed]. *)
Lemma wait_loop_confirmed (fuel : nat) (gw : Gateway) (api_url tx_hash : string)
    (max e : Z) (w : World) :
  reports (poll gw w api_url tx_hash 0) "confirmed" ->
  wait_loop (S fuel) gw api_url tx_hash max e w =
  (Return tt,
   extend w [poll_event api_url tx_hash;
             EvSpinnerSucceed "Transaction confirmed!"; EvSpinnerStop]).
Proof.
  intros [fields [Hr Hs]]. rewrite <- poll_zero in Hr.
  cbn [wait_loop]. unfold bind at 1. rewrite api_call_run, Hr.
  unfold bind at 1. rewrite get_object, Hs. simpl.
  unfold stopLoading, bind, emit. now rewrite !extend_extend.
Qed.

(** The iteration that uses up the budget. *)
Lemma wait_loop_timed_out (fuel : nat) (gw : Gateway) (api_url tx_hash : string)
    (max e : Z) (w : World) :
  unconfirmed (poll gw w api_url tx_hash 0) ->
  timed_out max (js_add e 1) = true ->
  wait_loop (S fuel) gw api_url tx_hash max e w =
  (Return tt,
   extend w [poll_event api_url tx_hash;
             EvSpinnerFail "Transaction not confirmed within the maximum wait time.";
             EvSpinnerStop]).
Proof.
  intros [fields [Hr Hs]] Ht. rewrite <- poll_zero in Hr.
  cbn [wait_loop]. unfold bind at 1. rewrite api_call_run, Hr.
  unfold bind at 1. rewrite get_object.
  rewrite (status_not_confirmed fields Hs), Ht.
  unfold stopLoading, bind, emit. now rewrite !extend_extend.
Qed.

(** The iteration whose poll fails: the error leaves the loop. *)
Lemma wait_loop_failed (fuel : nat) (gw : Gateway) (api_url tx_hash : string)
    (max e : Z) (w : World) (ex : exn) :
  failed_poll (poll gw w api_url tx_hash 0) = Some ex ->
  wait_loop (S fuel) gw api_url tx_hash max e w =
  (Throw ex, extend w [poll_event api_url tx_hash]).
Proof.
  intros Hf. rewrite <- poll_zero in Hf.
  cbn [wait_loop]. unfold bind at 1. rewrite api_call_run.
  destruct (gw _ GET _ VUndefined) as [body | body | detail];
    simpl in Hf; [discriminate | |]; injection Hf as <-; reflexivity.
Qed.

Lemma wait_for_tx_run (fuel : nat) (gw : Gateway) (api_url tx_hash : string)
    (max : Z) (w : World) :
  wait_for_tx fuel gw api_url tx_hash (Some max) w =
  match wait_loop fuel gw api_url tx_hash max 0 (extend w [started]) with
  | (Return _, w') => (Return tx_hash, w')
  | (Throw e, w') => (Throw e, w')
  | (Pending, w') => (Pending, w')
  end.
Proof.
  unfold wait_for_tx, bind, createLoading, emit, started.
  destruct (wait_loop fuel gw api_url tx_hash max 0 _) as [[u | e |] w'];
    reflexivity.
Qed.

Lemma wait_for_tx_after_rounds (n fuel : nat) (gw : Gateway)
    (api_url tx_hash : string) (max : Z) (w : World) :
  (forall k, (k < n)%nat -> unconfirmed (poll gw w api_url tx_hash k)) ->
  (forall k, (k < n)%nat -> timed_out max (elapsed_after 0 (S k)) = false) ->
  wait_for_tx (n + fuel) gw api_url tx_hash (Some max) w =
  match wait_loop fuel gw api_url tx_hash max (elapsed_after 0 n)
          (extend w (started :: rounds api_url tx_hash n)) with
  | (Return _, w') => (Return tx_hash, w')
  | (Throw e, w') => (Throw e, w')
  | (Pending, w') => (Pending, w')
  end.
Proof.
  intros Hp Ht. rewrite wait_for_tx_run, wait_loop_rounds.
  - rewrite extend_extend. reflexivity.
  - intros k Hk. rewrite poll_extend. simpl. now apply Hp.
  - exact Ht.
Qed.

Lemma no_timeout_yet (max : Z) (k : nat) :
  max = 0 \/ Z.of_nat k < max -> timed_out max (elapsed_after 0 k) = false.
Proof.
  intros H. unfold timed_out, truthy. rewrite elapsed_after_zero.
  destruct H as [-> | H]; [reflexivity |].
  apply andb_false_iff. right. apply Z.leb_gt. lia.
Qed.

Lemma polls_rounds (api_url tx_hash : string) (n : nat) (tail : list Event) :
  List.length (filter is_request (rounds api_url tx_hash n ++ tail)) =
  (n + List.length (filter is_request tail))%nat.
Proof.
  induction n as [| n IH]; simpl; [reflexivity | now rewrite IH].
Qed.

Lemma requests_in_rounds (api_url tx_hash : string) (n : nat) :
  List.length (filter is_request (rounds api_url tx_hash n)) = n.
Proof.
  induction n as [| n IH]; simpl; [reflexivity | now rewrite IH].
Qed.

Lemma polls_extend (w : World) (api_url tx_hash : string) (n : nat)
    (tail : list Event) :
  polls w (extend w (started :: rounds api_url tx_hash n ++ tail)) =
  (n + List.length (filter is_request tail))%nat.
Proof.
  unfold polls. rewrite added_extend. simpl. apply polls_rounds.
Qed.

(** X6: a budget beyond [2^53] is never reached: the counter stops at
    [2^53], so as long as no poll is answered [confirmed] the loop goes on. *)
Lemma wait_for_tx_budget_beyond_2_53 (gw : Gateway) (api_url tx_hash : string)
    (w : World) (max : Z) (n : nat) :
  2 ^ 53 < max ->
  (forall k, (k < n)%nat -> unconfirmed (poll gw w api_url tx_hash k)) ->
  wait_for_tx n gw api_url tx_hash (Some max) w =
  (Pending, extend w (started :: rounds api_url tx_hash n)).
Proof.
  intros Hmax Hp. replace n with (n + 0)%nat at 1 by lia.
  rewrite wait_for_tx_after_rounds; [reflexivity | exact Hp |].
  intros k _. unfold timed_out. rewrite elapsed_after_zero.
  apply andb_false_iff. right. apply Z.leb_gt. lia.
Qed.

(** C2 (as amended): when the gateway answers [pending] to the first
    [N - 1] status queries and [confirmed] to the [N]-th, and the budget
    [max] is an integer from 1 on, [wait_for_tx] returns the transaction
    hash it was given in both cases, not a status: with [N <= max] after
    exactly [N] polls, the spinner showing the confirmation; with
    [max < N] (and [max <= 2^53], where the counter stops) after exactly
    [max] polls, the spinner showing the failure to confirm in time. *)
Theorem wait_for_tx_polls (gw : Gateway) (api_url tx_hash : string)
    (w : World) (N : nat) (max : Z) (fuel : nat) :
  (1 <= N)%nat ->
  1 <= max ->
  (forall k, (k < N - 1)%nat -> reports (poll gw w api_url tx_hash k) "pending") ->
  reports (poll gw w api_url tx_hash (N - 1)) "confirmed" ->
  (Z.of_nat N <= max -> (N <= fuel)%nat ->
   let w' := extend w (started :: rounds api_url tx_hash (N - 1)
                         ++ poll_event api_url tx_hash :: shown_confirmed) in
   wait_for_tx fuel gw api_url tx_hash (Some max) w = (Return tx_hash, w') /\
   polls w w' = N) /\
  (max < Z.of_nat N -> max <= 2 ^ 53 -> (Z.to_nat max <= fuel)%nat ->
   let w' := extend w (started :: rounds api_url tx_hash (Z.to_nat max - 1)
                         ++ poll_event api_url tx_hash :: shown_timed_out) in
   wait_for_tx fuel gw api_url tx_hash (Some max) w = (Return tx_hash, w') /\
   polls w w' = Z.to_nat max).
Proof.
  intros HN Hmax Hpending Hconfirmed. split.
  - intros Hle Hfuel w'. subst w'. split.
    + replace fuel with ((N - 1) + S (fuel - N))%nat by lia.
      rewrite wait_for_tx_after_rounds.
      * rewrite wait_loop_confirmed.
        -- rewrite extend_extend. reflexivity.
        -- rewrite poll_extend. simpl.
           rewrite requests_in_rounds, Nat.add_0_r. exact Hconfirmed.
      * intros k Hk. apply reports_unconfirmed. now apply Hpending.
      * intros k Hk. apply no_timeout_yet. right. lia.
    + rewrite polls_extend. simpl. lia.
  - intros Hlt Hsafe Hfuel w'. subst w'.
    set (m := Z.to_nat max) in *.
    assert (Hm : (1 <= m < N)%nat) by (subst m; lia).
    split.
    + replace fuel with ((m - 1) + S (fuel - m))%nat by lia.
      rewrite wait_for_tx_after_rounds.
      * rewrite wait_loop_timed_out.
        -- rewrite extend_extend. reflexivity.
        -- rewrite poll_extend. simpl.
           rewrite requests_in_rounds, Nat.add_0_r.
           apply reports_unconfirmed. apply Hpending. lia.
        -- rewrite <- elapsed_after_S.
           replace (S (m - 1)) with m by lia.
           rewrite elapsed_after_zero. unfold timed_out, truthy.
           apply andb_true_iff. split.
           ++ apply negb_true_iff. apply Z.eqb_neq. lia.
           ++ apply Z.leb_le. subst m. lia.
      * intros k Hk. apply reports_unconfirmed. apply Hpending. lia.
      * intros k Hk. apply no_timeout_yet. right. subst m. lia.
    + rewrite polls_extend. simpl. lia.
Qed.

(** C5 (as amended): a poll that fails, by a transport error or an error
    status, ends [wait_for_tx] at once with that error: after [k] polls
    that were answered without a confirmation and within the budget, a
    failing poll number [k + 1] is the last request made and its error is
    thrown to the caller; the spinner is left running and no timed-out
    status is produced. *)
Theorem wait_for_tx_failed_poll_aborts (gw : Gateway)
    (api_url tx_hash : string) (w : World) (max : Z) (k fuel : nat) (ex : exn) :
  (forall j, (j < k)%nat -> unconfirmed (poll gw w api_url tx_hash j)) ->
  max = 0 \/ Z.of_nat k < max ->
  failed_poll (poll gw w api_url tx_hash k) = Some ex ->
  (k < fuel)%nat ->
  let w' := extend w (started :: rounds api_url tx_hash k
                        ++ [poll_event api_url tx_hash]) in
  wait_for_tx fuel gw api_url tx_hash (Some max) w = (Throw ex, w') /\
  polls w w' = S k.
Proof.
  intros Hp Hmax Hf Hfuel w'. subst w'. split.
  - replace fuel with (k + S (fuel - S k))%nat by lia.
    rewrite wait_for_tx_after_rounds.
    + rewrite (wait_loop_failed _ _ _ _ _ _ _ ex).
      * rewrite extend_extend. reflexivity.
      * rewrite poll_extend. simpl.
        rewrite requests_in_rounds, Nat.add_0_r. exact Hf.
    + exact Hp.
    + intros j Hj. apply no_timeout_yet.
      destruct Hmax as [H0 | Hlt]; [now left | right; lia].
  - rewrite polls_extend. simpl. lia.
Qed.



Lemma get_member (obj : value) (key : string) (w : World) :
  get obj key w =
  match member obj key with
  | Some v => (Return v, w)
  | None => (Throw (TypeError key), w)
  end.
Proof. destruct obj; reflexivity. Qed.

(** The loop, one iteration unfolded. *)
Lemma wait_loop_step (fuel : nat) (gw : Gateway) (api_url tx_hash : string)
    (max e : Z) (w : World) :
  wait_loop (S fuel) gw api_url tx_hash max e w =
  match poll gw w api_url tx_hash 0 with
  | Delivered body =>
      match member body "status" with
      | Some v =>
          if strict_eq_string v "confirmed" then
            (Return tt, extend w (poll_event api_url tx_hash :: shown_confirmed))
          else if timed_out max (js_add e 1) then
            (Return tt, extend w (poll_event api_url tx_hash :: shown_timed_out))
          else
            wait_loop fuel gw api_url tx_hash max (js_add e 1)
              (extend w (rounds api_url tx_hash 1))
      | None =>
          (Throw (TypeError "status"), extend w [poll_event api_url tx_hash])
      end
  | Rejected body =>
      (Throw (new_Error "api error: " body), extend w [poll_event api_url tx_hash])
  | Unreachable detail =>
      (Throw (TransportError detail), extend w [poll_event api_url tx_hash])
  end.
Proof.
  rewrite <- poll_zero. cbn [wait_loop]. unfold bind at 1.
  rewrite api_call_run.
  destruct (gw _ GET _ VUndefined) as [body | body | detail];
    try reflexivity.
  unfold bind at 1. rewrite get_member.
  destruct (member body "status") as [v |]; [| reflexivity].
  destruct (strict_eq_string v "confirmed").
  - unfold stopLoading, bind, emit. now rewrite !extend_extend.
  - destruct (timed_out max (js_add e 1)).
    + unfold stopLoading, bind, emit. now rewrite !extend_extend.
    + unfold bind, sleep, emit. now rewrite extend_extend.
Qed.





(** ** View calls *)

Lemma view_call_run (gw : Gateway) (api_url contract method : string)
    (params : list string) (caller : string) (w : World)
    (fields : list (string * value)) :
  reply_to gw w (view_request api_url contract method params caller) =
    Some (Delivered (VObj fields)) ->
  let answer :=
    if strict_eq_string
         (match lookup "status" fields with Some v => v | None => VUndefined end)
         "success"
    then match lookup "result" fields with
         | Some (VStr s) => Some s
         | _ => None
         end
    else None in
  fst (view_call gw api_url contract method params caller w) = Return answer /\
  fst (Main.view_call gw api_url contract method params caller w) = Return answer.
Proof.
  intros Hr answer. subst answer. simpl in Hr. injection Hr as Hr.
  unfold view_call, Main.view_call, bind, Main.api_call.
  rewrite api_call_run, Hr, !get_object.
  destruct (strict_eq_string _ "success").
  - rewrite !get_object.
    destruct (lookup "result" fields) as [[| | | | s | |] |]; split; reflexivity.
  - split; reflexivity.
Qed.

(** C4 (as amended): for every answer of the gateway to the request of
    [view_call] (in both source files).  A delivered body that is an
    object makes it return the result when the status is ["success"] and
    the result is a string, and return [null] without throwing when the
    status is anything else, ["error"] included, or the result is not a
    string; a delivered body that is no object and neither [null] nor
    [undefined] makes it return [null]; a delivered body that is [null] or
    [undefined] makes it throw the [TypeError] of reading the status; and
    an answer with an error status, or none, makes it throw in
    [api_call]. *)
Theorem view_call_result (gw : Gateway) (api_url contract method : string)
    (params : list string) (caller : string) (w : World) (reply : Reply) :
  reply_to gw w (view_request api_url contract method params caller) =
    Some reply ->
  let run := fst (view_call gw api_url contract method params caller w) in
  let run' := fst (Main.view_call gw api_url contract method params caller w) in
  match reply with
  | Delivered (VObj fields) =>
      (forall s,
         lookup "status" fields = Some (VStr "success") ->
         lookup "result" fields = Some (VStr s) ->
         run = Return (Some s) /\ run' = Return (Some s)) /\
      (lookup "status" fields = Some (VStr "error") ->
         run = Return None /\ run' = Return None) /\
      (lookup "status" fields <> Some (VStr "success") ->
         run = Return None /\ run' = Return None) /\
      ((forall s, lookup "result" fields <> Some (VStr s)) ->
         run = Return None /\ run' = Return None)
  | Delivered VNull | Delivered VUndefined =>
      run = Throw (TypeError "status") /\ run' = Throw (TypeError "status")
  | Delivered _ =>
      run = Return None /\ run' = Return None
  | Rejected body =>
      run = Throw (new_Error "api error: " body) /\ exists e, run' = Throw e
  | Unreachable detail =>
      run = Throw (TransportError detail) /\ run' = Throw (TransportError detail)
  end.
Proof.
  intros Hr run run'. subst run run'.
  destruct reply as [body | body | detail].
  - destruct body as [| | b | n | s | items | fields];
      try (simpl in Hr; injection Hr as Hr;
           unfold view_call, Main.view_call, bind, Main.api_call;
           rewrite api_call_run, Hr; split; reflexivity).
    destruct (view_call_run _ _ _ _ _ _ _ _ Hr) as [-> ->].
    assert (Hother : lookup "status" fields <> Some (VStr "success") ->
              strict_eq_string
                (match lookup "status" fields with Some v => v | None => VUndefined end)
                "success" = false).
    { intros Hs. destruct (lookup "status" fields) as [[| | | | s | |] |];
        try reflexivity.
      simpl. destruct (String.eqb_spec s "success"); [| reflexivity].
      subst s. now elim Hs. }
    split; [| split; [| split]].
    + intros s Hs Hres. rewrite Hs, Hres. split; reflexivity.
    + intros Hs. rewrite Hother; [split; reflexivity |].
      rewrite Hs. discriminate.
    + intros Hs. rewrite (Hother Hs). split; reflexivity.
    + intros Hres.
      destruct (strict_eq_string _ "success"); [| split; reflexivity].
      destruct (lookup "result" fields) as [[| | | | s | |] |];
        try (split; reflexivity).
      now elim (Hres s).
  - simpl in Hr. injection Hr as Hr.
    unfold view_call, Main.view_call, bind, Main.api_call.
    rewrite api_call_run, Hr. split; [reflexivity | eexists; reflexivity].
  - simpl in Hr. injection Hr as Hr.
    unfold view_call, Main.view_call, bind, Main.api_call.
    rewrite api_call_run, Hr. split; reflexivity.
Qed.

(** ** The model on concrete inputs *)

Lemma mock_scheme_correct : scheme_correct mock_ed25519.
Proof.
  intros message sk _. simpl.
  destruct (list_eq_dec byte_eq_dec (rev sk ++ message) (rev sk ++ message));
    [reflexivity | contradiction].
Defined.

(** A call with fetched nonce 5 submits nonce 6, once. *)
Lemma call_contract_next_nonce_example :
  0 <= 5 < 2 ^ 53 /\
  added world0
    (snd (call_contract (E := mock_ed25519) gw_accept "http://gw" key32 "A" 5
            "B" "inc" ["1"] world0)) =
  EvConsole ("Using nonce: " ++ decimal (5 + 1)) ::
  match fst (sign_tx (E := mock_ed25519) key32
               (Tx.mk "A" "B" "0" (Int (5 + 1)) "1" (js_div1000 (now world0)) [])
               world0) with
  | Return signature =>
      [submission "http://gw" "B" "inc" ["1"] "A" (Int (5 + 1))
         (js_div1000 (now world0)) signature
         (base64 (public_key_bytes (Ed25519 := mock_ed25519) key32))]
  | _ => []
  end.
Proof.
  split; [lia |].
  apply (call_contract_next_nonce (E := mock_ed25519) gw_accept "http://gw"
           key32 "A" 5 "B" "inc" ["1"] world0).
  lia.
Defined.

(** With the fetched nonce [2^53] the submitted nonce is [2^53] again, not
    its successor. *)
Lemma call_contract_nonce_at_2_53 :
  map (request_field "nonce")
    (requests
       (snd (call_contract (E := mock_ed25519) gw_accept "http://gw" key32 "A"
               (2 ^ 53) "B" "inc" ["1"] world0))) =
  [Some (VNum (Int (2 ^ 53)))] /\
  Int (2 ^ 53) <> Int (2 ^ 53 + 1).
Proof.
  split; [vm_compute; reflexivity | discriminate].
Qed.

(** Three polls to a confirmation within a budget of five; two polls and a
    time-out within a budget of two. *)
Lemma wait_for_tx_polls_example :
  (wait_for_tx 10 (gw_confirm_at 3) "http://gw" "abc123" (Some 5) world0 =
     (Return "abc123",
      extend world0 (started :: rounds "http://gw" "abc123" 2
                       ++ poll_event "http://gw" "abc123" :: shown_confirmed)) /\
   polls world0
     (extend world0 (started :: rounds "http://gw" "abc123" 2
                       ++ poll_event "http://gw" "abc123" :: shown_confirmed)) = 3%nat) /\
  (wait_for_tx 10 (gw_confirm_at 3) "http://gw" "abc123" (Some 2) world0 =
     (Return "abc123",
      extend world0 (started :: rounds "http://gw" "abc123" 1
                       ++ poll_event "http://gw" "abc123" :: shown_timed_out)) /\
   polls world0
     (extend world0 (started :: rounds "http://gw" "abc123" 1
                       ++ poll_event "http://gw" "abc123" :: shown_timed_out)) = 2%nat).
Proof.
  assert (Hp : forall k, (k < 3 - 1)%nat ->
            reports (poll (gw_confirm_at 3) world0 "http://gw" "abc123" k) "pending").
  { intros k Hk. destruct k as [| [| k]]; [| | lia];
      eexists; split; reflexivity. }
  assert (Hc : reports (poll (gw_confirm_at 3) world0 "http://gw" "abc123" (3 - 1))
                 "confirmed").
  { eexists; split; reflexivity. }
  split.
  - apply (proj1 (wait_for_tx_polls (gw_confirm_at 3) "http://gw" "abc123"
                    world0 3 5 10 ltac:(lia) ltac:(lia) Hp Hc)); lia.
  - apply (proj2 (wait_for_tx_polls (gw_confirm_at 3) "http://gw" "abc123"
                    world0 3 2 10 ltac:(lia) ltac:(lia) Hp Hc)); lia.
Defined.

(** What [wait_for_tx] returns is the hash it was given, the same for a
    confirmation and for a time-out: the status is not in the result. *)
Lemma wait_for_tx_returns_the_hash :
  fst (wait_for_tx 10 (gw_confirm_at 1) "http://gw" "abc123" (Some 1) world0) =
    Return "abc123" /\
  fst (wait_for_tx 10 gw_pending "http://gw" "abc123" (Some 1) world0) =
    Return "abc123" /\
  added world0
    (snd (wait_for_tx 10 (gw_confirm_at 1) "http://gw" "abc123" (Some 1) world0)) =
    started :: poll_event "http://gw" "abc123" :: shown_confirmed /\
  added world0
    (snd (wait_for_tx 10 gw_pending "http://gw" "abc123" (Some 1) world0)) =
    started :: poll_event "http://gw" "abc123" :: shown_timed_out.
Proof.
  repeat split; vm_compute; reflexivity.
Qed.

(** A gateway that cannot be reached, a budget of three: the first poll
    throws and the wait is over. *)
Lemma wait_for_tx_failed_poll_example :
  wait_for_tx 10 gw_down "http://gw" "abc123" (Some 3) world0 =
    (Throw (TransportError "ECONNREFUSED"),
     extend world0 (started :: rounds "http://gw" "abc123" 0
                      ++ [poll_event "http://gw" "abc123"])) /\
  polls world0
    (extend world0 (started :: rounds "http://gw" "abc123" 0
                      ++ [poll_event "http://gw" "abc123"])) = 1%nat.
Proof.
  apply (wait_for_tx_failed_poll_aborts gw_down "http://gw" "abc123" world0 3
           0 10 (TransportError "ECONNREFUSED")).
  - intros j Hj. lia.
  - right. lia.
  - reflexivity.
  - lia.
Defined.

(** The same run, read against the claim: an error, one poll, and no
    time-out shown. *)
Lemma wait_for_tx_transport_error_is_fatal :
  fst (wait_for_tx 10 gw_down "http://gw" "abc123" (Some 3) world0) =
    Throw (TransportError "ECONNREFUSED") /\
  polls world0
    (snd (wait_for_tx 10 gw_down "http://gw" "abc123" (Some 3) world0)) = 1%nat /\
  existsb (fun e => match e with EvSpinnerFail _ => true | _ => false end)
    (events (snd (wait_for_tx 10 gw_down "http://gw" "abc123" (Some 3) world0))) =
    false.
Proof.
  repeat split; vm_compute; reflexivity.
Qed.



(** The two responses of the spec's example. *)
Lemma view_call_result_example :
  (fst (view_call (gw_reply (VObj [("status", VStr "success"); ("result", VStr "42")]))
          "http://gw" "C" "get" [] "A" world0) = Return (Some "42") /\
   fst (Main.view_call (gw_reply (VObj [("status", VStr "success"); ("result", VStr "42")]))
          "http://gw" "C" "get" [] "A" world0) = Return (Some "42")) /\
  (fst (view_call (gw_reply (VObj [("status", VStr "error")]))
          "http://gw" "C" "get" [] "A" world0) = Return None /\
   fst (Main.view_call (gw_reply (VObj [("status", VStr "error")]))
          "http://gw" "C" "get" [] "A" world0) = Return None).
Proof.
  split.
  - apply (proj1 (view_call_result
             (gw_reply (VObj [("status", VStr "success"); ("result", VStr "42")]))
             "http://gw" "C" "get" [] "A" world0 _ eq_refl) "42");
      reflexivity.
  - apply (proj1 (proj2 (view_call_result
             (gw_reply (VObj [("status", VStr "error")]))
             "http://gw" "C" "get" [] "A" world0 _ eq_refl)));
      reflexivity.
Defined.

(** A reply of status 200 whose body is [null]: both copies of
    [view_call] throw; and so they do on a reply of status 500 whose body
    is the object with status ["error"]. *)
Lemma view_call_throws_on_null_body :
  (fst (view_call (gw_reply VNull) "http://gw" "C" "get" [] "A" world0) =
     Throw (TypeError "status") /\
   fst (Main.view_call (gw_reply VNull) "http://gw" "C" "get" [] "A" world0) =
     Throw (TypeError "status")) /\
  (fst (view_call (gw_reject (VObj [("status", VStr "error")]))
          "http://gw" "C" "get" [] "A" world0) =
     Throw (Error "api error: " None) /\
   fst (Main.view_call (gw_reject (VObj [("status", VStr "error")]))
          "http://gw" "C" "get" [] "A" world0) =
     Throw (Error "api error: [object Object]" None)).
Proof.
  repeat split; vm_compute; reflexivity.
Qed.

(** A key of 32 bytes and the transaction of the spec's scenario. *)
Lemma sign_tx_deterministic_example :
  exists signature,
    (forall w,
       sign_tx (E := mock_ed25519) key32
         (Tx.mk "A" "B" "0" (Int 5) "1" (Int 1700000000) []) w =
       (Return signature, w)) /\
    verifier_accepts (E := mock_ed25519) signature
      (base64 (public_key_bytes (Ed25519 := mock_ed25519) key32))
      "A" "B" "0" (Int 5) "1" (Int 1700000000) = true.
Proof.
  apply (sign_tx_deterministic_and_verifiable (E := mock_ed25519) key32
           (Tx.mk "A" "B" "0" (Int 5) "1" (Int 1700000000) [])
           mock_scheme_correct).
  reflexivity.
Defined.

(** A key of 31 bytes. *)
Lemma invalid_key_example :
  (forall tx w,
     sign_tx (E := mock_ed25519) key31 tx w = (Throw InvalidKeyError, w)) /\
  (forall gw api_url address nonce contract method params w,
     fst (call_contract (E := mock_ed25519) gw api_url key31 address nonce
            contract method params w) = Throw InvalidKeyError /\
     filter is_request
       (added w (snd (call_contract (E := mock_ed25519) gw api_url key31 address
                        nonce contract method params w))) = []).
Proof.
  apply (invalid_key_fails_before_network (E := mock_ed25519) key31).
  discriminate.
Defined.



(** C6, on the code: the gateway refuses a submission with the reason
    [stale nonce]; the error that leaves [call_contract] has the message
    [api error: ] and nothing of the reason, after one request.  The
    [api_call] of [src/src/main.ts] puts the reason into the message. *)
Example call_contract_rejection_drops_reason :
  fst (call_contract (E := mock_ed25519) (gw_reject (VStr "stale nonce"))
         "http://gw" key32 "A" 5 "B" "inc" ["1"] world0) =
    Throw (Error "api error: " None) /\
  polls world0
    (snd (call_contract (E := mock_ed25519) (gw_reject (VStr "stale nonce"))
            "http://gw" key32 "A" 5 "B" "inc" ["1"] world0)) = 1%nat /\
  fst (Main.api_call (gw_reject (VStr "stale nonce")) POST
         "http://gw/call-contract" VUndefined world0) =
    Throw (Error "api error: stale nonce" None).
Proof.
  repeat split; vm_compute; reflexivity.
Qed.

(** * Further properties

    What the functions do on every reply, and the parts of [main] around
    them. *)

(** ** Replies *)

(** ** Every run of the polling loop *)

(** Whatever the gateway answers, the loop leaves [n] full rounds and one
    of the endings behind. *)
Lemma wait_loop_trace (gw : Gateway) (api_url tx_hash : string) (max : Z)
    (fuel : nat) :
  forall (e : Z) (w : World),
    exists n ending,
      (n <= fuel)%nat /\
      In ending
        (endings api_url tx_hash
           (match fst (wait_loop fuel gw api_url tx_hash max e w) with
            | Return _ => Return tx_hash
            | Throw x => Throw x
            | Pending => Pending
            end)) /\
      snd (wait_loop fuel gw api_url tx_hash max e w) =
        extend w (rounds api_url tx_hash n ++ ending).
Proof.
  induction fuel as [| fuel IH]; intros e w.
  - exists O, []. simpl. rewrite extend_nil. auto.
  - rewrite wait_loop_step.
    destruct (poll gw w api_url tx_hash 0) as [body | body | detail];
      try (exists O, [poll_event api_url tx_hash]; simpl;
           repeat split; auto; lia).
    destruct (member body "status") as [v |];
      try (exists O, [poll_event api_url tx_hash]; simpl;
           repeat split; auto; lia).
    destruct (strict_eq_string v "confirmed");
      [exists O, (poll_event api_url tx_hash :: shown_confirmed); simpl;
       repeat split; auto; lia |].
    destruct (timed_out max (js_add e 1));
      [exists O, (poll_event api_url tx_hash :: shown_timed_out); simpl;
       repeat split; auto; lia |].
    destruct (IH (js_add e 1) (extend w (rounds api_url tx_hash 1)))
      as (n & ending & Hn & Hin & Hw).
    exists (S n), ending. split; [lia |]. split; [exact Hin |].
    rewrite Hw, extend_extend. reflexivity.
Qed.

Lemma wait_for_tx_shape (fuel : nat) (gw : Gateway) (api_url tx_hash : string)
    (max_wait_time : option Z) (w : World) :
  exists n ending,
    snd (wait_for_tx fuel gw api_url tx_hash max_wait_time w) =
      extend w (started :: rounds api_url tx_hash n ++ ending) /\
    (ending = [] \/
     exists tail, ending = poll_event api_url tx_hash :: tail /\
                  filter is_request tail = []).
Proof.
  unfold wait_for_tx, bind at 1, createLoading, emit. fold started.
  unfold bind.
  destruct (wait_loop_trace gw api_url tx_hash
              (match max_wait_time with Some m => m | None => 90 end) fuel 0
              (extend w [started])) as (n & ending & _ & Hin & Hw).
  exists n, ending. split.
  - destruct (wait_loop fuel gw api_url tx_hash _ 0 (extend w [started]))
      as [[u | x |] w']; cbn [fst snd] in *; subst w';
      now rewrite extend_extend.
  - destruct (fst (wait_loop fuel gw api_url tx_hash _ 0 (extend w [started])))
      as [u | x |]; simpl in Hin.
    + destruct Hin as [<- | [<- | []]]; right; eexists; split; reflexivity.
    + destruct Hin as [<- | []]; right; eexists; split; reflexivity.
    + destruct Hin as [<- | []]. now left.
Qed.

(** X1: whatever the gateway answers and whatever the budget, a run of
    [wait_for_tx] starts the spinner once, then makes some number [n] of
    polls each followed by a pause of 5000 ms, then ends in one of three
    ways: a last poll after which the spinner shows success or failure
    and stops (the function returns), a last poll and nothing else (the
    function throws), or nothing (the run is still going when the fuel is
    used up).  When it returns, it returns the hash it was given. *)
Theorem wait_for_tx_trace (fuel : nat) (gw : Gateway) (api_url tx_hash : string)
    (max_wait_time : option Z) (w : World) :
  let run := wait_for_tx fuel gw api_url tx_hash max_wait_time w in
  exists n ending,
    (n <= fuel)%nat /\
    In ending (endings api_url tx_hash (fst run)) /\
    snd run = extend w (started :: rounds api_url tx_hash n ++ ending) /\
    (fst run = Return tx_hash \/ (forall h, fst run <> Return h)).
Proof.
  intros run. subst run.
  unfold wait_for_tx, bind at 1, createLoading, emit. fold started.
  unfold bind.
  destruct (wait_loop_trace gw api_url tx_hash (budget_of max_wait_time) fuel 0
              (extend w [started])) as (n & ending & Hn & Hin & Hw).
  change (match max_wait_time with Some m => m | None => 90 end)
    with (budget_of max_wait_time).
  destruct (wait_loop fuel gw api_url tx_hash (budget_of max_wait_time) 0
              (extend w [started])) as [[u | x |] w'];
    cbn [fst snd] in *; subst w'; rewrite extend_extend;
    exists n, ending; (split; [exact Hn |]); (split; [exact Hin |]);
    (split; [reflexivity |]).
  - now left.
  - right. intros h. discriminate.
  - right. intros h. discriminate.
Qed.

Lemma requests_rounds_1 (w : World) (api_url tx_hash : string) :
  List.length (requests (extend w (rounds api_url tx_hash 1))) =
  S (List.length (requests w)).
Proof. rewrite requests_extend, length_app. simpl. lia. Qed.

Lemma requests_poll (w : World) (api_url tx_hash : string) (tail : list Event) :
  filter is_request tail = [] ->
  List.length (requests (extend w (poll_event api_url tx_hash :: tail))) =
  S (List.length (requests w)).
Proof.
  intros H. rewrite requests_extend, length_app. simpl. rewrite H. simpl. lia.
Qed.

(** With a budget the counter can reach, the loop that has made [k] polls
    makes at most [max - k] more. *)
Lemma wait_loop_bound (gw : Gateway) (api_url tx_hash : string) (max : Z)
    (fuel : nat) :
  max <= 2 ^ 53 ->
  forall (k : nat) (w : World),
    Z.of_nat k < max ->
    (List.length (requests (snd (wait_loop fuel gw api_url tx_hash max (Z.of_nat k) w)))
       + k <= List.length (requests w) + Z.to_nat max)%nat.
Proof.
  intros Hsafe. induction fuel as [| fuel IH]; intros k w Hk.
  - simpl. lia.
  - rewrite wait_loop_step.
    destruct (poll gw w api_url tx_hash 0) as [body | body | detail];
      cbn [snd]; try (rewrite requests_poll by reflexivity; lia).
    destruct (member body "status") as [v |];
      cbn [snd]; try (rewrite requests_poll by reflexivity; lia).
    destruct (strict_eq_string v "confirmed");
      cbn [snd]; try (rewrite requests_poll by reflexivity; lia).
    destruct (timed_out max (js_add (Z.of_nat k) 1)) eqn:Ht;
      cbn [snd]; try (rewrite requests_poll by reflexivity; lia).
    rewrite js_add_one_exact in * by lia.
    unfold timed_out, truthy in Ht.
    apply andb_false_iff in Ht. destruct Ht as [Ht | Ht].
    + apply negb_false_iff, Z.eqb_eq in Ht. lia.
    + apply Z.leb_gt in Ht.
      replace (Z.of_nat k + 1) with (Z.of_nat (S k)) in * by lia.
      specialize (IH (S k) (extend w (rounds api_url tx_hash 1)) Ht).
      rewrite requests_rounds_1 in IH. lia.
Qed.

Lemma filter_rounds (api_url tx_hash : string) (n : nat) :
  filter is_request (rounds api_url tx_hash n) =
  repeat (poll_event api_url tx_hash) n.
Proof. induction n as [| n IH]; simpl; [reflexivity | now rewrite IH]. Qed.

(** The requests of [wait_for_tx] are polls of the hash, and with a budget
    the counter can reach there are no more of them than the budget. *)
Lemma wait_for_tx_requests (fuel : nat) (gw : Gateway)
    (api_url tx_hash : string) (max : Z) (w : World) :
  1 <= max <= 2 ^ 53 ->
  exists n,
    (n <= Z.to_nat max)%nat /\
    filter is_request
      (added w (snd (wait_for_tx fuel gw api_url tx_hash (Some max) w))) =
    repeat (poll_event api_url tx_hash) n.
Proof.
  intros Hmax.
  destruct (wait_for_tx_shape fuel gw api_url tx_hash (Some max) w)
    as (n & ending & Hw & He).
  pose proof (wait_loop_bound gw api_url tx_hash max fuel (proj2 Hmax) 0
                (extend w [started]) ltac:(simpl; lia)) as B.
  assert (Hsnd : snd (wait_for_tx fuel gw api_url tx_hash (Some max) w) =
                 snd (wait_loop fuel gw api_url tx_hash max 0 (extend w [started]))).
  { rewrite wait_for_tx_run.
    destruct (wait_loop fuel gw api_url tx_hash max 0 (extend w [started]))
      as [[u | x |] w']; reflexivity. }
  change (Z.of_nat 0) with 0 in B. rewrite <- Hsnd, Hw in B.
  rewrite Hw, added_extend.
  rewrite !requests_extend, !length_app in B.
  cbn [filter is_request started] in *.
  rewrite filter_app, filter_rounds in *. rewrite length_app, repeat_length in B.
  destruct He as [-> | (tail & -> & Ht)].
  - exists n. rewrite app_nil_r. split; [simpl in B; lia | reflexivity].
  - exists (S n). cbn [filter is_request poll_event] in *. rewrite Ht in *.
    split; [simpl in B; lia |].
    fold (poll_event api_url tx_hash). now rewrite <- repeat_cons.
Qed.

(** X2: with a budget [max] from 1 to [2^53], [wait_for_tx] never makes
    more than [max] requests, whatever the gateway answers and however
    long the run is followed. *)
Theorem wait_for_tx_bounded (fuel : nat) (gw : Gateway)
    (api_url tx_hash : string) (max : Z) (w : World) :
  1 <= max <= 2 ^ 53 ->
  (polls w (snd (wait_for_tx fuel gw api_url tx_hash (Some max) w))
     <= Z.to_nat max)%nat.
Proof.
  intros Hmax.
  destruct (wait_for_tx_requests fuel gw api_url tx_hash max w Hmax)
    as (n & Hn & Hreq).
  unfold polls. now rewrite Hreq, repeat_length.
Qed.

(** X4: a budget below zero is truthy and already reached by the first
    count: after one poll that does not report a confirmation the wait
    ends as timed out. *)
Theorem wait_for_tx_negative_budget (fuel : nat) (gw : Gateway)
    (api_url tx_hash : string) (max : Z) (w : World) :
  max < 0 ->
  unconfirmed (poll gw w api_url tx_hash 0) ->
  wait_for_tx (S fuel) gw api_url tx_hash (Some max) w =
  (Return tx_hash,
   extend w (started :: poll_event api_url tx_hash :: shown_timed_out)).
Proof.
  intros Hmax Hp. rewrite wait_for_tx_run, wait_loop_timed_out.
  - now rewrite extend_extend.
  - rewrite poll_extend. exact Hp.
  - change (js_add 0 1) with 1. unfold timed_out, truthy.
    apply andb_true_iff. split.
    + apply negb_true_iff, Z.eqb_neq. lia.
    + apply Z.leb_le. lia.
Qed.

(** X3: when none of the first [max] polls reports a confirmation, where
    [max] is the budget given or 90 when none is given,
    [wait_for_tx] returns the hash after exactly [max] polls, with
    [max - 1] pauses of 5000 ms between them, and the spinner shows the
    failure to confirm in time. *)
Theorem wait_for_tx_gives_up (fuel : nat) (gw : Gateway)
    (api_url tx_hash : string) (max_wait_time : option Z) (w : World) :
  let max := budget_of max_wait_time in
  1 <= max <= 2 ^ 53 ->
  (forall k, (k < Z.to_nat max)%nat -> unconfirmed (poll gw w api_url tx_hash k)) ->
  (Z.to_nat max <= fuel)%nat ->
  let w' := extend w (started :: rounds api_url tx_hash (Z.to_nat max - 1)
                        ++ poll_event api_url tx_hash :: shown_timed_out) in
  wait_for_tx fuel gw api_url tx_hash max_wait_time w = (Return tx_hash, w') /\
  polls w w' = Z.to_nat max.
Proof.
  intros max Hmax Hp Hfuel w'. subst w'.
  assert (Hsame : wait_for_tx fuel gw api_url tx_hash max_wait_time w =
                  wait_for_tx fuel gw api_url tx_hash (Some max) w)
    by (destruct max_wait_time; reflexivity).
  rewrite Hsame. set (m := Z.to_nat max) in *.
  assert (Hm : (1 <= m)%nat) by (subst m; lia).
  split.
  - replace fuel with ((m - 1) + S (fuel - m))%nat by lia.
    rewrite wait_for_tx_after_rounds.
    + rewrite wait_loop_timed_out.
      * rewrite extend_extend. reflexivity.
      * rewrite poll_extend. simpl. rewrite requests_in_rounds, Nat.add_0_r.
        apply Hp. lia.
      * rewrite <- elapsed_after_S. replace (S (m - 1)) with m by lia.
        rewrite elapsed_after_zero. unfold timed_out, truthy.
        apply andb_true_iff. split.
        -- apply negb_true_iff, Z.eqb_neq. lia.
        -- apply Z.leb_le. subst m. lia.
    + intros k Hk. apply Hp. lia.
    + intros k Hk. apply no_timeout_yet. right. subst m. lia.
  - rewrite polls_extend. simpl. lia.
Qed.

(** With a budget the counter can reach and fuel for that many
    iterations, the loop comes to an end. *)
Lemma wait_loop_ends (gw : Gateway) (api_url tx_hash : string) (max : Z)
    (fuel : nat) :
  max <= 2 ^ 53 ->
  forall (k : nat) (w : World),
    Z.of_nat k < max ->
    (Z.to_nat max - k <= fuel)%nat ->
    fst (wait_loop fuel gw api_url tx_hash max (Z.of_nat k) w) <> Pending.
Proof.
  intros Hsafe. induction fuel as [| fuel IH]; intros k w Hk Hfuel.
  - lia.
  - rewrite wait_loop_step.
    destruct (poll gw w api_url tx_hash 0) as [body | body | detail];
      try discriminate.
    destruct (member body "status") as [v |]; try discriminate.
    destruct (strict_eq_string v "confirmed"); try discriminate.
    destruct (timed_out max (js_add (Z.of_nat k) 1)) eqn:Ht; try discriminate.
    rewrite js_add_one_exact in * by lia.
    unfold timed_out, truthy in Ht.
    apply andb_false_iff in Ht. destruct Ht as [Ht | Ht].
    + apply negb_false_iff, Z.eqb_eq in Ht. lia.
    + apply Z.leb_gt in Ht.
      replace (Z.of_nat k + 1) with (Z.of_nat (S k)) in * by lia.
      apply IH; lia.
Qed.

(** X5: with a budget [max] from 1 to [2^53], [wait_for_tx] comes to an
    end within [max] iterations: it returns the hash or throws. *)
Theorem wait_for_tx_terminates (fuel : nat) (gw : Gateway)
    (api_url tx_hash : string) (max : Z) (w : World) :
  1 <= max <= 2 ^ 53 ->
  (Z.to_nat max <= fuel)%nat ->
  fst (wait_for_tx fuel gw api_url tx_hash (Some max) w) = Return tx_hash \/
  exists e, fst (wait_for_tx fuel gw api_url tx_hash (Some max) w) = Throw e.
Proof.
  intros Hmax Hfuel. rewrite wait_for_tx_run.
  pose proof (wait_loop_ends gw api_url tx_hash max fuel (proj2 Hmax) 0
                (extend w [started]) ltac:(simpl; lia) ltac:(lia)) as H.
  change (Z.of_nat 0) with 0 in H.
  destruct (wait_loop fuel gw api_url tx_hash max 0 (extend w [started]))
    as [[u | x |] w']; cbn [fst] in *.
  - now left.
  - right. now exists x.
  - now elim H.
Qed.

(** ** View calls, balance and submission: every reply *)

Lemma view_call_outcome (gw : Gateway) (api_url contract method : string)
    (params : list string) (caller : string) (w : World) :
  view_call gw api_url contract method params caller w =
  (match reply_to gw w (view_request api_url contract method params caller) with
   | Some (Delivered body) => view_answer body
   | Some (Rejected body) => Throw (new_Error "api error: " body)
   | Some (Unreachable detail) => Throw (TransportError detail)
   | None => Pending
   end,
   extend w [view_request api_url contract method params caller]).
Proof.
  cbn [reply_to view_request].
  unfold view_call, bind. rewrite api_call_run.
  destruct (gw _ POST _ _) as [body | body | detail]; try reflexivity.
  rewrite get_member. unfold view_answer.
  destruct body as [| | b | n | s | items | fields]; try reflexivity.
  cbn [member]. destruct (strict_eq_string _ "success"); reflexivity.
Qed.

Lemma Main_view_call_outcome (gw : Gateway) (api_url contract method : string)
    (params : list string) (caller : string) (w : World) :
  Main.view_call gw api_url contract method params caller w =
  (match reply_to gw w (view_request api_url contract method params caller) with
   | Some (Delivered body) => view_answer body
   | Some (Rejected body) => Throw (Error ("api error: " ++ ToString body) None)
   | Some (Unreachable detail) => Throw (TransportError detail)
   | None => Pending
   end,
   extend w [view_request api_url contract method params caller]).
Proof.
  cbn [reply_to view_request].
  unfold Main.view_call, bind, Main.api_call.
  destruct (gw _ POST _ _) as [body | body | detail]; try reflexivity.
  rewrite get_member. unfold view_answer.
  destruct body as [| | b | n | s | items | fields]; try reflexivity.
  cbn [member]. destruct (strict_eq_string _ "success"); reflexivity.
Qed.

Lemma member_literal (body : value) (key lit : string) (v : value) :
  member body key = Some v ->
  strict_eq_string v lit = true ->
  exists fields, body = VObj fields /\ lookup key fields = Some (VStr lit).
Proof.
  intros Hm Hv.
  destruct body as [| | b | n | s | items | fields]; simpl in Hm;
    try discriminate; try (injection Hm as <-; discriminate).
  exists fields. split; [reflexivity |]. injection Hm as <-.
  destruct (lookup key fields) as [[| | | | s | |] |]; try discriminate.
  simpl in Hv. apply String.eqb_eq in Hv. now subst s.
Qed.

Lemma view_answer_some (body : value) (s : string) :
  view_answer body = Return (Some s) ->
  exists fields,
    body = VObj fields /\
    lookup "status" fields = Some (VStr "success") /\
    lookup "result" fields = Some (VStr s).
Proof.
  unfold view_answer. intros H.
  destruct (member body "status") as [status |] eqn:Hs; [| discriminate].
  destruct (member body "result") as [result |] eqn:Hr; [| discriminate].
  destruct (strict_eq_string status "success") eqn:He; [| discriminate].
  destruct (member_literal _ _ _ _ Hs He) as [fields [-> Hstatus]].
  exists fields. split; [reflexivity |]. split; [exact Hstatus |].
  cbn [member] in Hr. injection Hr as Hr.
  destruct result; try discriminate. injection H as ->.
  destruct (lookup "result" fields) as [v |]; [now subst v | discriminate].
Qed.

Lemma view_answer_returns (body : value) :
  (exists r, view_answer body = Return r) <->
  (body <> VNull /\ body <> VUndefined).
Proof.
  unfold view_answer. split.
  - intros [r Hr]. destruct body; try discriminate; split; discriminate.
  - intros [H1 H2].
    destruct body as [| | b | n | s | items | fields]; try contradiction;
      cbn [member];
      try (destruct (strict_eq_string _ "success"); eexists; reflexivity).
Qed.

(** X8: both copies of [view_call] return a string only when the gateway
    delivered an object whose [status] is the string [success] and whose
    [result] is that string. *)
Theorem view_call_string_only_on_success (gw : Gateway)
    (api_url contract method : string) (params : list string)
    (caller : string) (w : World) (s : string) :
  fst (view_call gw api_url contract method params caller w) = Return (Some s) \/
  fst (Main.view_call gw api_url contract method params caller w) = Return (Some s) ->
  exists fields,
    reply_to gw w (view_request api_url contract method params caller) =
      Some (Delivered (VObj fields)) /\
    lookup "status" fields = Some (VStr "success") /\
    lookup "result" fields = Some (VStr s).
Proof.
  rewrite view_call_outcome, Main_view_call_outcome. cbn [fst].
  destruct (reply_to gw w _) as [[body | body | detail] |];
    try (intros [H | H]; discriminate).
  intros H.
  assert (H' : view_answer body = Return (Some s)) by (destruct H; assumption).
  destruct (view_answer_some body s H') as (fields & -> & Hs & Hr).
  exists fields. auto.
Qed.

(** X7: both copies of [view_call] make exactly one request, and return
    (a string or null) exactly when the gateway delivered a body other
    than [null] and [undefined]; in every other case they throw or the
    request is not answered. *)
Theorem view_call_returns_iff_delivered (gw : Gateway)
    (api_url contract method : string) (params : list string)
    (caller : string) (w : World) :
  let request := view_request api_url contract method params caller in
  let delivered :=
    exists body, reply_to gw w request = Some (Delivered body) /\
                 body <> VNull /\ body <> VUndefined in
  ((exists r, fst (view_call gw api_url contract method params caller w) = Return r)
   <-> delivered) /\
  ((exists r, fst (Main.view_call gw api_url contract method params caller w) = Return r)
   <-> delivered) /\
  added w (snd (view_call gw api_url contract method params caller w)) = [request] /\
  added w (snd (Main.view_call gw api_url contract method params caller w)) = [request].
Proof.
  intros request delivered. subst request delivered.
  rewrite view_call_outcome, Main_view_call_outcome. cbn [fst snd].
  rewrite added_extend.
  split; [| split; [| split; reflexivity]];
    (destruct (reply_to gw w _) as [[body | body | detail] |];
     [ split;
       [ intros [r Hr]; exists body; split; [reflexivity |];
         apply view_answer_returns; now exists r
       | intros (body' & Hb & Hn); injection Hb as <-;
         now apply view_answer_returns ]
     | split; [intros [r Hr]; discriminate | intros (b & Hb & _); discriminate] ..
     ]).
Qed.

Lemma get_balance_run (gw : Gateway) (api_url addr : string) (w : World) :
  get_balance gw api_url addr w =
  (match reply_to gw w (balance_request api_url addr) with
   | Some (Delivered body) =>
       match member body "balance", member body "nonce" with
       | Some balance, Some nonce => Return (balance, nonce)
       | _, _ => Throw (TypeError "balance")
       end
   | Some (Rejected body) => Throw (new_Error "api error: " body)
   | Some (Unreachable detail) => Throw (TransportError detail)
   | None => Pending
   end,
   extend w [balance_request api_url addr]).
Proof.
  cbn [reply_to balance_request].
  unfold get_balance, bind. rewrite api_call_run.
  destruct (gw _ GET _ _) as [body | body | detail]; try reflexivity.
  rewrite !get_member.
  destruct body as [| | b | n | s | items | fields]; reflexivity.
Qed.

(** X10: [get_balance] makes one GET request to [/balance/<addr>].  It
    returns exactly when the gateway delivers a body other than [null]
    and [undefined], and then hands back what an object has under
    [balance] and [nonce] without checking either: a missing property
    comes back as [undefined]. *)
Theorem get_balance_unchecked (gw : Gateway) (api_url addr : string) (w : World) :
  let run := get_balance gw api_url addr w in
  let reply := reply_to gw w (balance_request api_url addr) in
  added w (snd run) = [balance_request api_url addr] /\
  ((exists r, fst run = Return r) <->
   (exists body, reply = Some (Delivered body) /\
                 body <> VNull /\ body <> VUndefined)) /\
  (forall fields,
     reply = Some (Delivered (VObj fields)) ->
     fst run =
     Return (match lookup "balance" fields with Some v => v | None => VUndefined end,
             match lookup "nonce" fields with Some v => v | None => VUndefined end)).
Proof.
  intros run reply. subst run reply. rewrite get_balance_run. cbn [fst snd].
  rewrite added_extend. split; [reflexivity |]. split.
  - destruct (reply_to gw w (balance_request api_url addr))
      as [[body | body | detail] |].
    + split.
      * intros [r Hr]. exists body. split; [reflexivity |].
        destruct body; try discriminate; split; discriminate.
      * intros (body' & Hb & Hn & Hu). injection Hb as <-.
        destruct body; try contradiction; eexists; reflexivity.
    + split; [intros [r Hr]; discriminate | intros (b & Hb & _); discriminate].
    + split; [intros [r Hr]; discriminate | intros (b & Hb & _); discriminate].
    + split; [intros [r Hr]; discriminate | intros (b & Hb & _); discriminate].
  - intros fields ->. reflexivity.
Qed.

Section SubmissionReplies.

Context {E : Ed25519}.

Lemma call_contract_outcome (gw : Gateway) (api_url : string) (sk : list byte)
    (address : string) (nonce : Z) (contract method : string)
    (params : list string) (w : World) :
  List.length sk = 32%nat ->
  fst (call_contract gw api_url sk address nonce contract method params w) =
  match reply_to gw w
          (submission_in w api_url sk address nonce contract method params) with
  | Some (Delivered body) =>
      match member body "tx_hash" with
      | Some v => Return v
      | None => Throw (TypeError "tx_hash")
      end
  | Some (Rejected body) => Throw (new_Error "api error: " body)
  | Some (Unreachable detail) => Throw (TransportError detail)
  | None => Pending
  end.
Proof.
  intros Hlen. cbn [reply_to submission_in submission].
  unfold call_contract, bind, Date_now, console_log, emit.
  rewrite sign_tx_run, Hlen. simpl.
  unfold ed_getPublicKey, check_private_key, bind. rewrite Hlen. simpl.
  rewrite api_call_run, requests_extend. cbn [filter is_request].
  rewrite app_nil_r.
  destruct (gw _ POST _ _) as [body | body | detail]; try reflexivity.
  cbn [fst]. rewrite get_member. destruct (member body "tx_hash"); reflexivity.
Qed.

(** X11: with a key the library accepts, when the gateway delivers an
    object, [call_contract] returns its [tx_hash] property whatever it is,
    and [undefined] when the object has none: the result is not checked to
    be a string. *)
Theorem call_contract_returns_member (gw : Gateway) (api_url : string)
    (sk : list byte) (address : string) (nonce : Z) (contract method : string)
    (params : list string) (w : World) (fields : list (string * value)) :
  List.length sk = 32%nat ->
  reply_to gw w (submission_in w api_url sk address nonce contract method params) =
    Some (Delivered (VObj fields)) ->
  fst (call_contract gw api_url sk address nonce contract method params w) =
  Return (match lookup "tx_hash" fields with
          | Some v => v
          | None => VUndefined
          end).
Proof.
  intros Hlen Hr. rewrite call_contract_outcome, Hr by exact Hlen. reflexivity.
Qed.

(** X12: with a key the library accepts, when the gateway rejects the
    submission with a body that is not an object, the error thrown by
    [call_contract] is [api error: ] with no cause: nothing of the body is
    kept. *)
Theorem call_contract_rejection_is_anonymous (gw : Gateway) (api_url : string)
    (sk : list byte) (address : string) (nonce : Z) (contract method : string)
    (params : list string) (w : World) (body : value) :
  List.length sk = 32%nat ->
  reply_to gw w (submission_in w api_url sk address nonce contract method params) =
    Some (Rejected body) ->
  (forall fields, body <> VObj fields) ->
  fst (call_contract gw api_url sk address nonce contract method params w) =
  Throw (Error "api error: " None).
Proof.
  intros Hlen Hr Hb. rewrite call_contract_outcome, Hr by exact Hlen.
  destruct body; try reflexivity. now elim (Hb fields).
Qed.

End SubmissionReplies.

(** X9: in [src/src/main.ts] a rejected view call throws an error whose
    message is [api error: ] followed by the body when the body is a
    string, and by [[object Object]] when it is an object that has no
    property named [toString]. *)
Theorem Main_view_call_error_text (gw : Gateway)
    (api_url contract method : string) (params : list string)
    (caller : string) (w : World) (body : value) :
  reply_to gw w (view_request api_url contract method params caller) =
    Some (Rejected body) ->
  (forall s, body = VStr s ->
     fst (Main.view_call gw api_url contract method params caller w) =
     Throw (Error ("api error: " ++ s) None)) /\
  (forall fields, body = VObj fields ->
     lookup "toString" fields = None ->
     fst (Main.view_call gw api_url contract method params caller w) =
     Throw (Error "api error: [object Object]" None)).
Proof.
  intros Hr. rewrite Main_view_call_outcome, Hr. cbn [fst].
  split; [intros x -> | intros x -> _]; reflexivity.
Qed.

(** ** The answers object *)

Lemma has_key_In (k : string) (obj : list (string * string)) :
  has_key k obj = true <-> In k (map fst obj).
Proof.
  unfold has_key. induction obj as [| [k' v'] obj IH]; simpl.
  - split; [discriminate | contradiction].
  - rewrite orb_true_iff, IH, String.eqb_eq. tauto.
Qed.

Lemma has_key_false (k : string) (obj : list (string * string)) :
  ~ In k (map fst obj) -> has_key k obj = false.
Proof.
  intros H. destruct (has_key k obj) eqn:E; [| reflexivity].
  apply has_key_In in E. contradiction.
Qed.

Lemma fold_assign_ordinary (entries : list (string * string)) :
  forall acc,
    NoDup (map fst (acc ++ entries)) ->
    (forall k, In k (map fst entries) -> ordinary k) ->
    fold_left (fun obj kv => assign obj (fst kv) (snd kv)) entries acc =
    (acc ++ entries)%list.
Proof.
  induction entries as [| [k v] entries IH]; intros acc Hnd Hord; simpl.
  - now rewrite app_nil_r.
  - destruct (Hord k (or_introl eq_refl)) as [Hidx Hproto].
    assert (Hstep : assign acc k v = (acc ++ [(k, v)])%list).
    { unfold assign.
      destruct (String.eqb_spec k "__proto__"); [contradiction |].
      rewrite has_key_false, Hidx; [reflexivity |].
      rewrite map_app in Hnd. simpl in Hnd.
      apply NoDup_remove_2 in Hnd. intros Hin. apply Hnd.
      apply in_or_app. now left. }
    rewrite Hstep, IH.
    + now rewrite <- app_assoc.
    + now rewrite <- app_assoc.
    + intros k' Hk'. apply Hord. now right.
Qed.

(** X13: when the parameter names are distinct, none is an array index
    and none is [__proto__], [Object.values(params)] is the answers in the
    order the parameters are declared. *)
Theorem params_in_declared_order (entries : list (string * string)) :
  NoDup (map fst entries) ->
  (forall k, In k (map fst entries) -> ordinary k) ->
  Object_values (collect_params entries) = map snd entries.
Proof.
  intros Hnd Hord. unfold collect_params.
  now rewrite (fold_assign_ordinary entries [] Hnd Hord).
Qed.

Lemma length_replace_value (k v : string) (obj : list (string * string)) :
  List.length (replace_value k v obj) = List.length obj.
Proof.
  induction obj as [| [k' v'] obj IH]; simpl; [reflexivity |].
  destruct (String.eqb k' k); simpl; [reflexivity | now rewrite IH].
Qed.

Lemma keys_replace_value (k v : string) (obj : list (string * string)) :
  map fst (replace_value k v obj) = map fst obj.
Proof.
  induction obj as [| [k' v'] obj IH]; simpl; [reflexivity |].
  destruct (String.eqb k' k); simpl; [reflexivity | now rewrite IH].
Qed.

Lemma length_insert_index (n : Z) (k v : string) (obj : list (string * string)) :
  List.length (insert_index n k v obj) = S (List.length obj).
Proof.
  induction obj as [| [k' v'] obj IH]; simpl; [reflexivity |].
  destruct (array_index k') as [n' |]; [| reflexivity].
  destruct (n' <? n); simpl; [now rewrite IH | reflexivity].
Qed.

Lemma keys_insert_index (n : Z) (k v : string) (obj : list (string * string))
    (x : string) :
  In x (map fst (insert_index n k v obj)) <-> x = k \/ In x (map fst obj).
Proof.
  induction obj as [| [k' v'] obj IH]; simpl.
  - intuition.
  - destruct (array_index k') as [n' |]; [| simpl; intuition].
    destruct (n' <? n); simpl; [rewrite IH |]; intuition.
Qed.

Lemma length_assign (obj : list (string * string)) (k v : string) :
  List.length (assign obj k v) =
  if makes_property obj k then S (List.length obj) else List.length obj.
Proof.
  unfold assign, makes_property.
  destruct (String.eqb k "__proto__"); [reflexivity |].
  destruct (has_key k obj); simpl; [apply length_replace_value |].
  destruct (array_index k); [apply length_insert_index |].
  rewrite length_app. simpl. lia.
Qed.

Lemma keys_assign (obj : list (string * string)) (k v x : string) :
  In x (map fst (assign obj k v)) <->
  In x (map fst obj) \/ (x = k /\ k <> "__proto__").
Proof.
  unfold assign.
  destruct (String.eqb_spec k "__proto__") as [-> | Hp]; [tauto |].
  destruct (has_key k obj) eqn:Hk.
  - rewrite keys_replace_value. apply has_key_In in Hk.
    split; [tauto |]. intros [H | [-> _]]; assumption.
  - destruct (array_index k).
    + rewrite keys_insert_index. tauto.
    + rewrite map_app, in_app_iff. simpl. intuition.
Qed.

Lemma length_fold_assign (entries : list (string * string)) :
  forall acc,
    let obj := fold_left (fun obj kv => assign obj (fst kv) (snd kv)) entries acc in
    (List.length obj <= List.length acc + List.length entries)%nat /\
    (List.length obj = (List.length acc + List.length entries)%nat <->
     NoDup (map fst entries) /\
     forall k, In k (map fst entries) ->
               k <> "__proto__" /\ ~ In k (map fst acc)).
Proof.
  induction entries as [| [k v] entries IH]; intros acc obj; subst obj; simpl.
  - split; [lia |]. split; [intros _; split; [constructor | contradiction] | lia].
  - destruct (IH (assign acc k v)) as [Hle Hiff]. cbv zeta in Hle, Hiff.
    rewrite length_assign in Hle, Hiff.
    unfold makes_property in *.
    destruct (String.eqb_spec k "__proto__") as [Hp | Hp]; simpl in *.
    + split; [lia |]. split; [lia |].
      intros [_ H]. now destruct (H k (or_introl eq_refl)).
    + destruct (has_key k acc) eqn:Hk; simpl in *.
      * split; [lia |]. split; [lia |].
        intros [_ H]. destruct (H k (or_introl eq_refl)) as [_ Hn].
        apply has_key_In in Hk. contradiction.
      * assert (Hnk : ~ In k (map fst acc)).
        { intros Hin. apply has_key_In in Hin. congruence. }
        split; [lia |].
        replace (List.length acc + S (List.length entries))%nat
          with (S (List.length acc) + List.length entries)%nat by lia.
        rewrite Hiff. split.
        -- intros [Hnd H]. split.
           ++ constructor; [| exact Hnd].
              intros Hin. destruct (H k Hin) as [_ Hn]. apply Hn.
              apply keys_assign. right. now split.
           ++ intros x [<- | Hx]; [now split |].
              destruct (H x Hx) as [Hxp Hxn]. split; [exact Hxp |].
              intros Hin. apply Hxn. apply keys_assign. now left.
        -- intros [Hnd H]. inversion Hnd as [| ? ? Hnotin Hnd']; subst.
           split; [exact Hnd' |].
           intros x Hx. destruct (H x (or_intror Hx)) as [Hxp Hxn].
           split; [exact Hxp |].
           intros Hin. apply keys_assign in Hin.
           destruct Hin as [Hin | [-> _]]; [now apply Hxn | contradiction].
Qed.

(** X14: [Object.values(params)] never holds more values than there are
    parameters, and holds one value for each parameter exactly when the
    names are distinct and none is [__proto__]: a repeated name keeps
    only its last answer, and the answer for [__proto__] is dropped. *)
Theorem params_count (entries : list (string * string)) :
  (List.length (Object_values (collect_params entries)) <= List.length entries)%nat /\
  (List.length (Object_values (collect_params entries)) = List.length entries <->
   NoDup (map fst entries) /\ ~ In "__proto__" (map fst entries)).
Proof.
  unfold Object_values, collect_params. rewrite length_map.
  destruct (length_fold_assign entries []) as [Hle Hiff]. cbv zeta in Hle, Hiff.
  simpl in Hle, Hiff. split; [exact Hle |].
  rewrite Hiff. split.
  - intros [Hnd H]. split; [exact Hnd |].
    intros Hin. now destruct (H _ Hin).
  - intros [Hnd Hp]. split; [exact Hnd |].
    intros k Hk. split; [| tauto]. intros ->. contradiction.
Qed.

(** X15: a parameter whose name is an array index (the decimal text of
    an integer from 0 to [2^32 - 2]) is moved before the parameters with
    ordinary names: declared second, its answer is sent first. *)
Theorem params_index_name_first (name idx a b : string) (n : Z) :
  ordinary name ->
  array_index idx = Some n ->
  Object_values (collect_params [(name, a); (idx, b)]) = [b; a].
Proof.
  intros [Hidx Hproto] Hn. unfold collect_params. simpl.
  assert (Hfirst : assign [] name a = [(name, a)]).
  { unfold assign. destruct (String.eqb_spec name "__proto__"); [contradiction |].
    simpl. now rewrite Hidx. }
  rewrite Hfirst. unfold assign.
  destruct (String.eqb_spec idx "__proto__") as [-> | _]; [discriminate |].
  simpl. destruct (String.eqb_spec name idx) as [-> | _]; [congruence |].
  simpl. rewrite Hn. simpl. now rewrite Hidx.
Qed.

(** ** Choosing a method *)

Lemma digit_of_digit (c : ascii) :
  is_digit c = true ->
  digit_of 10 c = Some (Z.of_nat (nat_of_ascii c) - 48).
Proof.
  unfold is_digit, digit_of. intros H.
  apply andb_true_iff in H. destruct H as [H1 H2].
  apply Nat.leb_le in H1. apply Nat.leb_le in H2.
  assert (E1 : (48 <=? Z.of_nat (nat_of_ascii c)) = true) by (apply Z.leb_le; lia).
  assert (E2 : (Z.of_nat (nat_of_ascii c) <=? 57) = true) by (apply Z.leb_le; lia).
  rewrite E1, E2. simpl.
  assert (E3 : (Z.of_nat (nat_of_ascii c) - 48 <? 10) = true) by (apply Z.ltb_lt; lia).
  now rewrite E3.
Qed.

Lemma digit_of_other (c : ascii) :
  is_digit c = false -> digit_of 10 c = None.
Proof.
  unfold is_digit, digit_of. intros H.
  set (n := Z.of_nat (nat_of_ascii c)).
  destruct ((48 <=? n) && (n <=? 57)) eqn:E.
  - apply andb_true_iff in E. destruct E as [E1 E2].
    apply Z.leb_le in E1. apply Z.leb_le in E2.
    apply andb_false_iff in H. destruct H as [H | H];
      apply Nat.leb_gt in H; subst n; lia.
  - destruct ((97 <=? n) && (n <=? 122)) eqn:E'.
    + apply andb_true_iff in E'. destruct E' as [E1 E2].
      apply Z.leb_le in E1.
      assert (E3 : (n - 87 <? 10) = false) by (apply Z.ltb_ge; lia).
      now rewrite E3.
    + destruct ((65 <=? n) && (n <=? 90)) eqn:E''; [| reflexivity].
      apply andb_true_iff in E''. destruct E'' as [E1 E2].
      apply Z.leb_le in E1.
      assert (E3 : (n - 55 <? 10) = false) by (apply Z.ltb_ge; lia).
      now rewrite E3.
Qed.

Lemma digits_value_rest (acc : Z) (rest : string) :
  not_a_digit_next rest -> digits_value 10 acc rest = acc.
Proof.
  destruct rest as [| c rest]; simpl; [reflexivity |].
  intros H. now rewrite digit_of_other.
Qed.

Lemma digits_value_uint (d : Decimal.uint) (rest : string) :
  not_a_digit_next rest ->
  forall acc,
    digits_value 10 acc (NilEmpty.string_of_uint d ++ rest) = uint_value acc d.
Proof.
  intros Hrest. induction d; intros acc; cbn [NilEmpty.string_of_uint uint_value];
    try (cbn [append digits_value]; rewrite digit_of_digit by reflexivity;
         cbn; apply IHd).
  simpl. now apply digits_value_rest.
Qed.

Lemma uint_value_acc (d : Decimal.uint) :
  forall acc : positive,
    Z.pos (Pos.of_uint_acc d acc) = uint_value (Z.pos acc) d.
Proof.
  induction d; intros acc; cbn [Pos.of_uint_acc uint_value];
    try reflexivity; rewrite IHd; f_equal; lia.
Qed.

Lemma uint_value_of_uint (d : Decimal.uint) : Z.of_uint d = uint_value 0 d.
Proof.
  unfold Z.of_uint.
  induction d; cbn [Pos.of_uint uint_value]; try reflexivity;
    try (cbn [Z.of_N]; rewrite uint_value_acc; reflexivity).
  exact IHd.
Qed.

Lemma to_uint_head (p : positive) (d : Decimal.uint) :
  Pos.to_uint p <> Decimal.D0 d.
Proof.
  intros H.
  pose proof (DecimalPos.Unsigned.to_of (Pos.to_uint p)) as T.
  rewrite DecimalPos.Unsigned.of_to in T. cbn [N.to_uint] in T.
  destruct (Decimal.uint_eq_dec (Decimal.nzhead (Pos.to_uint p)) Decimal.Nil)
    as [Hn | Hn].
  - apply DecimalFacts.unorm_0 in Hn. rewrite <- T in Hn.
    pose proof (DecimalPos.Unsigned.of_to p) as O. rewrite Hn in O. discriminate.
  - rewrite (DecimalFacts.unorm_nzhead _ Hn) in T.
    apply (DecimalFacts.nzhead_nonzero (Pos.to_uint p) d). now rewrite <- T.
Qed.

Lemma trim_start_digit (c : ascii) (s : string) :
  is_digit c = true -> trim_start (String c s) = String c s.
Proof.
  intros H.
  destruct c as [[] [] [] [] [] [] [] []]; try discriminate H;
    (destruct s as [| b [| c' s]]; reflexivity).
Qed.

(** [parseInt] on text that starts with a digit from 1 to 9. *)
Lemma parseInt_digits (c : ascii) (s : string) :
  is_digit c = true -> c <> "0"%char ->
  parseInt (String c s) = to_double (digits_value 10 0 (String c s)).
Proof.
  intros H H0. unfold parseInt. rewrite trim_start_digit by exact H.
  destruct c as [[] [] [] [] [] [] [] []]; try discriminate H;
    try (now elim H0); reflexivity.
Qed.

Lemma parseInt_decimal (k : Z) (rest : string) :
  1 <= k < 2 ^ 53 ->
  not_a_digit_next rest ->
  parseInt (decimal k ++ rest) = Finite k.
Proof.
  intros Hk Hrest. destruct k as [| p | p]; try lia.
  unfold decimal. cbn [Z.to_int NilZero.string_of_int].
  assert (Hs : NilZero.string_of_uint (Pos.to_uint p) =
               NilEmpty.string_of_uint (Pos.to_uint p)).
  { destruct (Pos.to_uint p) eqn:E; try reflexivity.
    now apply Unsigned.to_uint_nonnil in E. }
  rewrite Hs.
  assert (Hv : digits_value 10 0 (NilEmpty.string_of_uint (Pos.to_uint p) ++ rest)
               = Z.pos p).
  { rewrite digits_value_uint by exact Hrest.
    rewrite <- uint_value_of_uint. unfold Z.of_uint.
    now rewrite DecimalPos.Unsigned.of_to. }
  pose proof (to_uint_head p) as Hh.
  destruct (Pos.to_uint p) as [| d | d | d | d | d | d | d | d | d | d] eqn:E;
    [now apply Unsigned.to_uint_nonnil in E | now elim (Hh d) | ..];
    cbn [NilEmpty.string_of_uint append] in *;
    (rewrite parseInt_digits by (reflexivity || discriminate));
    rewrite Hv; unfold to_double;
    (replace (2 ^ 1024 - 2 ^ 970 <=? Z.abs (Z.pos p)) with false
       by (symmetry; apply Z.leb_gt;
           apply Z.lt_trans with (2 ^ 53); [lia | reflexivity]));
    now rewrite round_double_small by lia.
Qed.

(** X16: a choice that starts with the decimal text of a number [k] from
    1 on (below [2^53]), followed by nothing or by anything that does not
    start with a digit, selects the [k]-th method of the list, and no
    method when the list has fewer than [k]. *)
Theorem choose_by_number {A : Type} (methods : list A) (k : nat) (rest : string) :
  (1 <= k)%nat ->
  Z.of_nat k < 2 ^ 53 ->
  not_a_digit_next rest ->
  selected methods (decimal (Z.of_nat k) ++ rest) = nth_error methods (k - 1).
Proof.
  intros Hk Hsafe Hrest. unfold selected.
  rewrite parseInt_decimal by (try exact Hrest; lia).
  unfold minus_one, element.
  rewrite round_double_small by lia.
  replace (0 <=? Z.of_nat k - 1) with true by (symmetry; apply Z.leb_le; lia).
  f_equal. lia.
Qed.

(** ** The session of [main] *)

Local Open Scope io_scope.

Lemma lift_console (line : string) (s : Session) :
  lift (console_log line) s =
  (inl tt, set_world s (extend (world s) [EvConsole line])).
Proof. reflexivity. Qed.

Lemma show_methods_run (methods : list Method.t) :
  forall (id : Z) (w : World),
    show_methods id methods w = (Return tt, extend w (menu_lines id methods)).
Proof.
  induction methods as [| method rest IH]; intros id w; simpl.
  - unfold ret. now rewrite extend_nil.
  - unfold bind, console_log, emit. now rewrite IH, extend_extend.
Qed.

Lemma prompt_run (question : string) (w : World) (lines : list string)
    (t : list (nat * Output)) :
  prompt question (mkSession w lines t) =
  match lines with
  | [] =>
      (inr EndOfInput,
       mkSession w [] (t ++ [(List.length (events w), Question question)]))
  | answer :: rest =>
      (inl (trim answer),
       mkSession w rest (t ++ [(List.length (events w), Question question)]))
  end.
Proof. destruct lines; reflexivity. Qed.



Lemma reply_to_silent (gw : Gateway) (w : World) (l : list Event) (e : Event) :
  filter is_request l = [] ->
  reply_to gw (extend w l) e = reply_to gw w e.
Proof.
  intros H. destruct e; try reflexivity.
  unfold reply_to. now rewrite requests_extend, H, app_nil_r.
Qed.



Section MainProperties.

Context {E : Ed25519}.




Lemma io_adds_ret {A} (api_url : string) (a : A) : io_adds api_url (io_ret a).
Proof. intros s. exists []. now rewrite extend_nil. Qed.

Lemma io_adds_bind {A B} (api_url : string) (m : IO A) (k : A -> IO B) :
  io_adds api_url m -> (forall a, io_adds api_url (k a)) ->
  io_adds api_url (io_bind m k).
Proof.
  intros Hm Hk s. unfold io_bind.
  destruct (Hm s) as (l & Hw & Hl).
  destruct (m s) as [[a | e] s']; cbn [snd] in *.
  - destruct (Hk a s') as (l' & Hw' & Hl').
    exists (l ++ l')%list. rewrite Hw', Hw, extend_extend.
    split; [reflexivity | now apply Forall_app].
  - exists l. now split.
Qed.


Lemma io_adds_lift {A} (api_url : string) (m : M A) :
  adds api_url m -> io_adds api_url (lift m).
Proof.
  intros Hm s. unfold lift. destruct (Hm (world s)) as (l & Hw & Hl).
  exists l. destruct (m (world s)) as [[a | e |] w']; cbn [snd] in *;
    now split.
Qed.

Lemma io_adds_show (api_url : string) (o : Output) : io_adds api_url (show o).
Proof. intros s. exists []. now rewrite extend_nil. Qed.

Lemma io_adds_prompt (api_url question : string) :
  io_adds api_url (prompt question).
Proof.
  intros [w lines t]. rewrite prompt_run. exists [].
  rewrite extend_nil. destruct lines; now split.
Qed.

Lemma io_adds_exit {A} (api_url : string) (code : Z) :
  io_adds api_url (process_exit (A := A) code).
Proof. intros s. exists []. now rewrite extend_nil. Qed.

Lemma io_adds_unmodelled {A} (api_url : string) :
  io_adds api_url (unmodelled (A := A)).
Proof. intros s. exists []. now rewrite extend_nil. Qed.

Lemma io_adds_ask_params (api_url : string) (params : list Param.t) :
  forall obj, io_adds api_url (ask_params params obj).
Proof.
  induction params as [| param rest IH]; intros obj; cbn [ask_params].
  - apply io_adds_ret.
  - apply io_adds_bind; [apply io_adds_prompt | intros a; apply IH].
Qed.

Lemma adds_console (api_url line : string) : adds api_url (console_log line).
Proof. intros w. exists [EvConsole line]. split; [reflexivity |]. now repeat constructor. Qed.

Lemma to_gateway_request (api_url path : string) (method : HttpMethod)
    (data : value) :
  to_gateway api_url (EvRequest method (api_url ++ path) data).
Proof. now exists path. Qed.

Lemma adds_get_balance (gw : Gateway) (api_url addr : string) :
  adds api_url (get_balance gw api_url addr).
Proof.
  intros w. rewrite get_balance_run. eexists. split; [reflexivity |].
  repeat constructor. apply to_gateway_request.
Qed.

Lemma adds_view_call (gw : Gateway) (api_url contract method : string)
    (params : list string) (caller : string) :
  adds api_url (view_call gw api_url contract method params caller).
Proof.
  intros w. rewrite view_call_outcome. eexists. split; [reflexivity |].
  repeat constructor. apply to_gateway_request.
Qed.

Lemma adds_show_methods (api_url : string) (methods : list Method.t) (id : Z) :
  adds api_url (show_methods id methods).
Proof.
  intros w. rewrite show_methods_run. eexists. split; [reflexivity |].
  revert id. induction methods as [| m rest IH]; intros id; simpl;
    constructor; [exact I | apply IH].
Qed.

Lemma rounds_to_gateway (api_url tx_hash : string) (n : nat) :
  Forall (to_gateway api_url) (rounds api_url tx_hash n).
Proof.
  induction n as [| n IH]; simpl; repeat constructor; try exact IH.
  apply to_gateway_request.
Qed.

Lemma silent_to_gateway (api_url : string) (l : list Event) :
  filter is_request l = [] -> Forall (to_gateway api_url) l.
Proof.
  induction l as [| e l IH]; intros H; constructor.
  - destruct e; try exact I. discriminate H.
  - apply IH. destruct e; try exact H. discriminate H.
Qed.

Lemma adds_wait_for_tx (fuel : nat) (gw : Gateway) (api_url tx_hash : string)
    (max_wait_time : option Z) :
  adds api_url (wait_for_tx fuel gw api_url tx_hash max_wait_time).
Proof.
  intros w.
  destruct (wait_for_tx_shape fuel gw api_url tx_hash max_wait_time w)
    as (n & ending & Hw & He).
  eexists. split; [exact Hw |].
  constructor; [exact I |]. apply Forall_app. split.
  - apply rounds_to_gateway.
  - destruct He as [-> | (tail & -> & Ht)]; constructor.
    + apply to_gateway_request.
    + now apply silent_to_gateway.
Qed.

(** The whole run of [call_contract]. *)
Lemma call_contract_run (gw : Gateway) (api_url : string) (sk : list byte)
    (address : string) (nonce : Z) (contract method : string)
    (params : list string) (w : World) :
  call_contract gw api_url sk address nonce contract method params w =
  if Nat.eqb (List.length sk) 32 then
    (match reply_to gw w
             (submission_in w api_url sk address nonce contract method params) with
     | Some (Delivered body) =>
         match member body "tx_hash" with
         | Some v => Return v
         | None => Throw (TypeError "tx_hash")
         end
     | Some (Rejected body) => Throw (new_Error "api error: " body)
     | Some (Unreachable detail) => Throw (TransportError detail)
     | None => Pending
     end,
     extend w
       [EvConsole ("Using nonce: " ++ decimal (js_add nonce 1));
        submission_in w api_url sk address nonce contract method params])
  else
    (Throw InvalidKeyError,
     extend w [EvConsole ("Using nonce: " ++ decimal (js_add nonce 1))]).
Proof.
  cbn [reply_to submission_in submission].
  unfold call_contract, bind, Date_now, console_log, emit.
  rewrite sign_tx_run.
  destruct (Nat.eqb (List.length sk) 32) eqn:Hlen; [| reflexivity].
  simpl. unfold ed_getPublicKey, check_private_key, bind. rewrite Hlen. simpl.
  rewrite api_call_run, requests_extend. cbn [filter is_request].
  rewrite app_nil_r, extend_extend.
  destruct (gw _ POST _ _) as [body | body | detail]; try reflexivity.
  rewrite get_member. destruct (member body "tx_hash"); reflexivity.
Qed.

Lemma adds_call_contract (gw : Gateway) (api_url : string) (sk : list byte)
    (address : string) (nonce : Z) (contract method : string)
    (params : list string) :
  adds api_url
    (call_contract gw api_url sk address nonce contract method params).
Proof.
  intros w. rewrite call_contract_run.
  destruct (Nat.eqb (List.length sk) 32); eexists; (split; [reflexivity |]);
    repeat constructor.
  apply to_gateway_request.
Qed.

Lemma io_adds_dispatch (fuel : nat) (gw : Gateway) (wallet : Wallet.t)
    (contract : Interface.t) (nonce : value) (obj : option Method.t) :
  io_adds (Wallet.rpc wallet) (dispatch fuel gw wallet contract nonce obj).
Proof.
  unfold dispatch.
  destruct obj as [method |];
    [| apply io_adds_lift, adds_console].
  destruct (strict_eq_string (Method.type method) "view").
  - apply io_adds_bind; [apply io_adds_ask_params | intros params].
    apply io_adds_bind; [apply io_adds_lift, adds_view_call | intros r].
    apply io_adds_lift, adds_console.
  - destruct (strict_eq_string (Method.type method) "call");
      [| apply io_adds_lift, adds_console].
    apply io_adds_bind; [apply io_adds_ask_params | intros params].
    apply io_adds_bind.
    { destruct (base64ToUnit8Array (Wallet.priv wallet)) as [sk |];
        [| apply io_adds_unmodelled].
      destruct nonce as [| | b | [z | ms] | s | items | fields];
        try apply io_adds_unmodelled.
      apply io_adds_lift, adds_call_contract. }
    intros txHash.
    apply io_adds_bind; [apply io_adds_lift, adds_console | intros _].
    apply io_adds_bind; [apply io_adds_prompt | intros waitTx].
    apply io_adds_bind.
    { destruct (lower_is_y waitTx); [| apply io_adds_ret].
      apply io_adds_bind; [apply io_adds_lift, adds_wait_for_tx | intros _].
      apply io_adds_ret. }
    intros _. apply io_adds_lift, adds_console.
Qed.

Lemma io_adds_main_round (fuel : nat) (gw : Gateway) (wallet : Wallet.t)
    (contract : Interface.t) :
  io_adds (Wallet.rpc wallet) (main_round fuel gw wallet contract).
Proof.
  unfold main_round.
  apply io_adds_bind; [apply io_adds_lift, adds_console | intros _].
  apply io_adds_bind; [apply io_adds_lift, adds_get_balance | intros response].
  apply io_adds_bind; [apply io_adds_lift, adds_console | intros _].
  apply io_adds_bind; [apply io_adds_lift, adds_console | intros _].
  apply io_adds_bind; [apply io_adds_lift, adds_show_methods | intros _].
  apply io_adds_bind; [apply io_adds_lift, adds_console | intros _].
  apply io_adds_bind; [apply io_adds_prompt | intros selectedMethod].
  apply io_adds_bind.
  { destruct (String.eqb selectedMethod "0"); [| apply io_adds_ret].
    apply io_adds_bind; [apply io_adds_lift, adds_console | intros _].
    apply io_adds_exit. }
  intros _.
  apply io_adds_bind; [apply io_adds_dispatch | intros _].
  apply io_adds_bind; [apply io_adds_prompt | intros _].
  apply io_adds_show.
Qed.

(** X23: in every run of [main] that stays within what is modelled (no
    submission is reached with a wallet key that is not padded standard
    base64, or with a fetched nonce that is not an integer number), over
    any number of passes and whatever is typed, every request goes to a
    URL that begins with the [rpc] of the wallet file. *)
Theorem main_requests_go_to_rpc (passes fuel : nat) (gw : Gateway)
    (wallet : Wallet.t) (contract : Interface.t) (clock : nat -> Z) :
  forall (i : nat) (s : Session),
    fst (main passes fuel gw wallet contract clock i s) <> Unmodelled ->
    Forall (to_gateway (Wallet.rpc wallet))
      (added (world s)
         (world (snd (main passes fuel gw wallet contract clock i s)))).
Proof.
  intros i s _. revert i s.
  assert (G : forall i s, exists l,
             events (world (snd (main passes fuel gw wallet contract clock i s)))
             = (events (world s) ++ l)%list /\
             Forall (to_gateway (Wallet.rpc wallet)) l).
  { induction passes as [| passes IH]; intros i s.
    - exists []. simpl. now rewrite app_nil_r.
    - cbn [main].
      set (s0 := set_world s (mkWorld (clock i) (events (world s)))).
      destruct (io_adds_main_round fuel gw wallet contract s0) as (l & Hw & Hl).
      destruct (main_round fuel gw wallet contract s0) as [[u | e] s'];
        cbn [snd] in *.
      + destruct (IH (S i) s') as (l' & Hw' & Hl').
        exists (l ++ l')%list. rewrite Hw', Hw. simpl. rewrite <- app_assoc.
        split; [reflexivity | now apply Forall_app].
      + exists l. rewrite Hw. now split. }
  intros i s. destruct (G i s) as (l & Hw & Hl).
  unfold added. rewrite Hw, skipn_app, skipn_all, Nat.sub_diag. exact Hl.
Qed.





(** X18: when the balance query fails (the gateway rejects it or cannot
    be reached, or the body is [null]), the pass ends with that error
    unhandled after the address line and the one request: no menu is
    printed, no question asked, no line read. *)
Theorem main_round_balance_failure (fuel : nat) (gw : Gateway)
    (wallet : Wallet.t) (contract : Interface.t) (s : Session)
    (r : Reply) (e : exn) :
  reply_to gw (world s)
    (balance_request (Wallet.rpc wallet) (Wallet.addr wallet)) = Some r ->
  balance_failure r = Some e ->
  main_round fuel gw wallet contract s =
  (inr (Unhandled e),
   mkSession
     (extend (world s)
        [EvConsole ("Address: " ++ Wallet.addr wallet);
         balance_request (Wallet.rpc wallet) (Wallet.addr wallet)])
     (stdin s) (terminal s)).
Proof.
  intros Hr He. unfold main_round.
  unfold io_bind at 1. rewrite lift_console.
  unfold io_bind at 1. unfold lift at 1. cbn [world set_world].
  rewrite get_balance_run, reply_to_silent by reflexivity.
  rewrite Hr, extend_extend. unfold set_world. cbn [world stdin terminal app].
  destruct r as [body | body | detail]; cbn [balance_failure] in He.
  - destruct (member body "balance") eqn:Hb; [discriminate |].
    injection He as <-. reflexivity.
  - injection He as <-. reflexivity.
  - injection He as <-. reflexivity.
Qed.





















End MainProperties.

(** ** The script [main.ts] *)

Lemma view_answer_settled (body : value) : view_answer body <> Pending.
Proof.
  unfold view_answer.
  destruct (member body "status"); [| discriminate].
  destruct (member body "result"); [| discriminate].
  destruct (strict_eq_string _ "success"); discriminate.
Qed.

(** X24: the script [main.ts] makes one view call of the first method of
    the interface (of the method with the empty name when there is none)
    with no parameters, and prints the string returned or [null]; it
    prints nothing exactly when the call throws. *)
Theorem main_ts_prints (gw : Gateway) (wallet : Wallet.t)
    (contract : Interface.t) (w : World) :
  let request :=
    view_request (Wallet.rpc wallet) (Interface.contract contract)
      (match Interface.methods contract with
       | method :: _ => Method.name method
       | [] => EmptyString
       end)
      [] (Wallet.addr wallet) in
  let printed :=
    match reply_to gw w request with
    | Some (Delivered body) =>
        match view_answer body with
        | Return (Some text) => [EvConsole text]
        | Return None => [EvConsole "null"]
        | _ => []
        end
    | _ => []
    end in
  added w (snd (main_ts gw wallet contract w)) = request :: printed /\
  (printed = [] <-> exists e, fst (main_ts gw wallet contract w) = Throw e).
Proof.
  intros request printed. subst printed.
  unfold main_ts, bind. rewrite Main_view_call_outcome. fold request.
  destruct (reply_to gw w request) as [[body | body | detail] |] eqn:Hr.
  - destruct (view_answer body) as [[text |] | e |] eqn:Ha; cbn [fst snd];
      unfold console_log, emit; cbn [fst snd];
      rewrite ?extend_extend, added_extend;
      (split; [reflexivity |]).
    + split; [discriminate | intros [x Hx]; discriminate].
    + split; [discriminate | intros [x Hx]; discriminate].
    + split; [intros _; now exists e | reflexivity].
    + now elim (view_answer_settled body).
  - cbn [fst snd]. rewrite added_extend. split; [reflexivity |].
    split; [intros _; eexists; reflexivity | reflexivity].
  - cbn [fst snd]. rewrite added_extend. split; [reflexivity |].
    split; [intros _; eexists; reflexivity | reflexivity].
  - unfold request in Hr. discriminate Hr.
Qed.

(** ** Further runs of the model *)

(** A gateway that never confirms, a budget of three. *)
Lemma wait_for_tx_bounded_example :
  1 <= 3 <= 2 ^ 53 /\
  (polls world0
     (snd (wait_for_tx 10 gw_pending "http://gw" "abc123" (Some 3%Z) world0))
   <= Z.to_nat 3%Z)%nat.
Proof.
  split; [lia |].
  apply (wait_for_tx_bounded 10 gw_pending "http://gw" "abc123" 3 world0).
  lia.
Defined.

(** No budget given: ninety polls, then the time-out. *)
Lemma wait_for_tx_gives_up_example :
  wait_for_tx 100 gw_pending "http://gw" "abc123" None world0 =
    (Return "abc123",
     extend world0 (started :: rounds "http://gw" "abc123" 89
                      ++ poll_event "http://gw" "abc123" :: shown_timed_out)) /\
  polls world0
    (extend world0 (started :: rounds "http://gw" "abc123" 89
                      ++ poll_event "http://gw" "abc123" :: shown_timed_out)) = 90%nat.
Proof.
  refine (wait_for_tx_gives_up 100 gw_pending "http://gw" "abc123" None world0
            _ _ _).
  - simpl. lia.
  - intros k _. eexists. split; [reflexivity | discriminate].
  - simpl. lia.
Defined.

(** A budget of minus one. *)
Lemma wait_for_tx_negative_budget_example :
  -1 < 0 /\
  wait_for_tx 10 gw_pending "http://gw" "abc123" (Some (-1)) world0 =
    (Return "abc123",
     extend world0 (started :: poll_event "http://gw" "abc123" :: shown_timed_out)).
Proof.
  split; [lia |].
  apply (wait_for_tx_negative_budget 9 gw_pending "http://gw" "abc123" (-1) world0).
  - lia.
  - eexists. split; [reflexivity | discriminate].
Defined.

(** A budget of five and fuel for five iterations. *)
Lemma wait_for_tx_terminates_example :
  fst (wait_for_tx 5 gw_pending "http://gw" "abc123" (Some 5) world0) =
    Return "abc123" \/
  exists e,
    fst (wait_for_tx 5 gw_pending "http://gw" "abc123" (Some 5) world0) = Throw e.
Proof.
  apply (wait_for_tx_terminates 5 gw_pending "http://gw" "abc123" 5 world0); lia.
Defined.

(** A budget of [2^53 + 1]: after seven polls the loop is still running. *)
Lemma wait_for_tx_budget_beyond_2_53_example :
  2 ^ 53 < 2 ^ 53 + 1 /\
  wait_for_tx 7 gw_pending "http://gw" "abc123" (Some (2 ^ 53 + 1)) world0 =
    (Pending, extend world0 (started :: rounds "http://gw" "abc123" 7)).
Proof.
  split; [lia |].
  apply (wait_for_tx_budget_beyond_2_53 gw_pending "http://gw" "abc123" world0
           (2 ^ 53 + 1) 7).
  - lia.
  - intros k _. eexists. split; [reflexivity | discriminate].
Defined.

(** The string [42] came from a success. *)
Lemma view_call_string_only_on_success_example :
  exists fields,
    reply_to (gw_reply (VObj [("status", VStr "success"); ("result", VStr "42")]))
      world0 (view_request "http://gw" "C" "get" [] "A") =
      Some (Delivered (VObj fields)) /\
    lookup "status" fields = Some (VStr "success") /\
    lookup "result" fields = Some (VStr "42").
Proof.
  apply (view_call_string_only_on_success
           (gw_reply (VObj [("status", VStr "success"); ("result", VStr "42")]))
           "http://gw" "C" "get" [] "A" world0 "42").
  left. reflexivity.
Defined.

(** A rejection with a string and one with an object. *)
Lemma Main_view_call_error_text_example :
  fst (Main.view_call (gw_reject (VStr "no such method"))
         "http://gw" "C" "get" [] "A" world0) =
    Throw (Error "api error: no such method" None) /\
  fst (Main.view_call (gw_reject (VObj [("error", VStr "no such method")]))
         "http://gw" "C" "get" [] "A" world0) =
    Throw (Error "api error: [object Object]" None).
Proof.
  split.
  - apply (proj1 (Main_view_call_error_text (gw_reject (VStr "no such method"))
                    "http://gw" "C" "get" [] "A" world0 _ eq_refl)
             "no such method" eq_refl).
  - apply (proj2 (Main_view_call_error_text
                    (gw_reject (VObj [("error", VStr "no such method")]))
                    "http://gw" "C" "get" [] "A" world0 _ eq_refl)
             [("error", VStr "no such method")] eq_refl eq_refl).
Defined.

(** A gateway that answers with a number for [tx_hash]. *)
Lemma call_contract_returns_member_example :
  fst (call_contract (E := mock_ed25519) (gw_reply (VObj [("tx_hash", VNum (Int 7))]))
         "http://gw" key32 "A" 5 "B" "inc" ["1"] world0) =
    Return (VNum (Int 7)) /\
  fst (call_contract (E := mock_ed25519) (gw_reply (VObj []))
         "http://gw" key32 "A" 5 "B" "inc" ["1"] world0) =
    Return VUndefined.
Proof.
  split.
  - apply (call_contract_returns_member (E := mock_ed25519)
             (gw_reply (VObj [("tx_hash", VNum (Int 7))]))
             "http://gw" key32 "A" 5 "B" "inc" ["1"] world0
             [("tx_hash", VNum (Int 7))]); reflexivity.
  - apply (call_contract_returns_member (E := mock_ed25519) (gw_reply (VObj []))
             "http://gw" key32 "A" 5 "B" "inc" ["1"] world0 []); reflexivity.
Defined.

(** A rejection whose body is the reason as a string. *)
Lemma call_contract_rejection_is_anonymous_example :
  fst (call_contract (E := mock_ed25519) (gw_reject (VStr "stale nonce"))
         "http://gw" key32 "A" 5 "B" "inc" ["1"] world0) =
    Throw (Error "api error: " None).
Proof.
  apply (call_contract_rejection_is_anonymous (E := mock_ed25519)
           (gw_reject (VStr "stale nonce")) "http://gw" key32 "A" 5 "B" "inc"
           ["1"] world0 (VStr "stale nonce")).
  - reflexivity.
  - reflexivity.
  - intros fields. discriminate.
Defined.

(** Two parameters with ordinary names. *)
Lemma params_in_declared_order_example :
  Object_values (collect_params [("to", "alice"); ("amount", "5")]) =
  ["alice"; "5"].
Proof.
  apply (params_in_declared_order [("to", "alice"); ("amount", "5")]).
  - repeat constructor; simpl; intuition discriminate.
  - intros k [<- | [<- | []]]; split; (reflexivity || discriminate).
Defined.

(** The parameter named [0] is declared second and sent first. *)
Lemma params_index_name_first_example :
  Object_values (collect_params [("to", "alice"); ("0", "5")]) = ["5"; "alice"].
Proof.
  apply (params_index_name_first "to" "0" "alice" "5" 0).
  - split; [reflexivity | discriminate].
  - reflexivity.
Defined.

(** The choice [2abc] among two methods. *)
Lemma choose_by_number_example :
  selected ["get"; "inc"] "2abc" = Some "inc" /\
  selected ["get"; "inc"] "3" = None.
Proof.
  split.
  - apply (choose_by_number ["get"; "inc"] 2 "abc"); (lia || reflexivity).
  - apply (choose_by_number ["get"; "inc"] 3 EmptyString); (lia || exact I).
Defined.


(** ** Sessions of the model *)


(** A gateway that cannot be reached. *)
Lemma main_round_balance_failure_example :
  main_round (E := mock_ed25519) 5 gw_down wallet0 contract0 (session0 ["1"]) =
  (inr (Unhandled (TransportError "ECONNREFUSED")),
   mkSession
     (extend world0 [EvConsole "Address: A"; balance_request "http://gw" "A"])
     ["1"] []).
Proof.
  apply (main_round_balance_failure (E := mock_ed25519) 5 gw_down wallet0
           contract0 (session0 ["1"]) (Unreachable "ECONNREFUSED"));
    reflexivity.
Defined.






(** Two passes: a view call, then the choice [0]. *)
Lemma main_requests_go_to_rpc_example :
  fst (main (E := mock_ed25519) 3 5 gw_session wallet0 contract0
         (fun _ => 1700000000123) 0 (session0 ["1"; "x"; "0"])) = Exited 0 /\
  Forall (to_gateway "http://gw")
    (added world0
       (world (snd (main (E := mock_ed25519) 3 5 gw_session wallet0 contract0
                      (fun _ => 1700000000123) 0 (session0 ["1"; "x"; "0"]))))).
Proof.
  assert (H : fst (main (E := mock_ed25519) 3 5 gw_session wallet0 contract0
                     (fun _ => 1700000000123) 0 (session0 ["1"; "x"; "0"])) =
              Exited 0) by (vm_compute; reflexivity).
  split; [exact H |].
  apply (main_requests_go_to_rpc (E := mock_ed25519) 3 5 gw_session wallet0
           contract0 (fun _ => 1700000000123) 0 (session0 ["1"; "x"; "0"])).
  rewrite H. discriminate.
Defined.
